(* The Euclidean scoring models of rudders (rudders/models/euclidean.py):
   SimpleFactor, TransE, MuREuclidean, RotRefEuclidean and
   UserAttentiveEuclidean.

   Tensors are nested lists with their shape; the framework calls the
   methods make (slicing, embedding lookup, broadcast arithmetic,
   reduce_sum, transpose, matmul) return a result or raise.  Scalars are
   the elements of an arbitrary real-ordered integral domain: arithmetic
   is exact, rounding is not modelled.  A method is a computation on
   self that returns or raises and hands self on. *)

From mathcomp Require Import boot order algebra.
From Stdlib Require PrimFloat.

Set Implicit Arguments.
Unset Strict Implicit.
Unset Printing Implicit Defensive.

Import GRing.Theory Num.Theory.
Local Open Scope ring_scope.

(* ------------------------------------------------------------------ *)
(* Results of tensor-framework calls                                   *)
(* ------------------------------------------------------------------ *)

(* The two error causes of the tensor library that the methods of
   euclidean.py can meet: an embedding id outside its table, and operand
   shapes that do not fit the operation. *)
Inductive tf_error : Type := OutOfRange | ShapeMismatch.

Inductive result (A : Type) : Type :=
  | Ok of A
  | Raise of tf_error.

Arguments Raise {A} _.

Definition is_ok A (r : result A) : bool :=
  if r is Ok _ then true else false.

(* ------------------------------------------------------------------ *)
(* Tensors                                                             *)
(* ------------------------------------------------------------------ *)

Section Tensors.

Variable T : Type.

(* A rank-2 tensor carries its static shape next to its rows, as the
   framework does: an empty batch still has a column count. *)
Record tensor2 : Type := Tensor2 {
  dim0 : nat;
  dim1 : nat;
  rows : seq (seq T)
}.

Definition wf2 (x : tensor2) : bool :=
  (size (rows x) == dim0 x) && all (fun r => size r == dim1 x) (rows x).

(* A rank-3 tensor B1 x B2 x d: one B2 x d block per row of the batch. *)
Record tensor3 : Type := Tensor3 {
  dim3_0 : nat;
  dim3_1 : nat;
  dim3_2 : nat;
  blocks : seq (seq (seq T))
}.

Definition wf3 (x : tensor3) : bool :=
  (size (blocks x) == dim3_0 x)
  && all (fun b => (size b == dim3_1 x)
                   && all (fun r => size r == dim3_2 x) b) (blocks x).

Variable t0 : T.

Definition row (x : tensor2) (i : nat) : seq T := nth [::] (rows x) i.

Definition entry (x : tensor2) (i j : nat) : T := nth t0 (row x i) j.

Definition entry3 (x : tensor3) (i j k : nat) : T :=
  nth t0 (nth [::] (nth [::] (blocks x) i) j) k.

End Tensors.

Arguments Tensor2 {T} _ _ _.
Arguments Tensor3 {T} _ _ _ _.

(* A method argument whose rank depends on a flag (rhs of the
   user-attentive score). *)
Inductive tensor (T : Type) : Type :=
  | Rank2 of tensor2 T
  | Rank3 of tensor3 T.

(* ------------------------------------------------------------------ *)
(* Integer id tensors: slicing                                         *)
(* ------------------------------------------------------------------ *)

(* Python indexing of an axis of length n: 0 .. n-1 from the front,
   -1 .. -n from the back; anything else is out of range. *)
Definition py_index (n : nat) (c : int) : option nat :=
  match c with
  | Posz k => if (k < n)%N then Some k else None
  | Negz k => if (k < n)%N then Some (n - k.+1)%N else None
  end.

(* input_tensor[:, c]: the rank-1 tensor of column c. *)
Definition slice_col (x : tensor2 int) (c : int) : result (seq int) :=
  if py_index (dim1 x) c is Some k
  then Ok [seq nth 0 r k | r <- rows x]
  else Raise ShapeMismatch.

(* ------------------------------------------------------------------ *)
(* Scalar tensors: the framework operations used by euclidean.py       *)
(* ------------------------------------------------------------------ *)

Section TensorOps.

Variable R : realDomainType.

Definition in_table (n : nat) (i : int) : bool :=
  if i is Posz k then (k < n)%N else false.

(* An embedding layer with weight table w (n x d) applied to a rank-1
   tensor of ids: the rows of w at those ids. *)
Definition embedding (w : tensor2 R) (ids : seq int) : result (tensor2 R) :=
  if all (in_table (dim0 w)) ids
  then Ok (Tensor2 (size ids) (dim1 w) [seq row w (absz i) | i <- ids])
  else Raise OutOfRange.

(* Broadcasting of one axis: equal lengths, or one of them is 1. *)
Definition bshape (m n : nat) : option nat :=
  if m == n then Some m
  else if m == 1%N then Some n
  else if n == 1%N then Some m
  else None.

Definition bidx (m i : nat) : nat := if m == 1%N then 0%N else i.

(* x + y, x * y, tf.multiply(x, y): elementwise with broadcasting. *)
Definition elementwise (f : R -> R -> R) (x y : tensor2 R)
  : result (tensor2 R) :=
  match bshape (dim0 x) (dim0 y), bshape (dim1 x) (dim1 y) with
  | Some r, Some c =>
      Ok (Tensor2 r c
            (mkseq (fun i => mkseq (fun j =>
               f (entry 0 x (bidx (dim0 x) i) (bidx (dim1 x) j))
                 (entry 0 y (bidx (dim0 y) i) (bidx (dim1 y) j))) c) r))
  | _, _ => Raise ShapeMismatch
  end.

Definition tf_add : tensor2 R -> tensor2 R -> result (tensor2 R) :=
  elementwise +%R.

Definition tf_multiply : tensor2 R -> tensor2 R -> result (tensor2 R) :=
  elementwise *%R.

(* Unary minus. *)
Definition tf_neg (x : tensor2 R) : tensor2 R :=
  Tensor2 (dim0 x) (dim1 x) [seq [seq - a | a <- r] | r <- rows x].

Definition sum_seq (s : seq R) : R := foldr +%R 0 s.

(* tf.reduce_sum(x, axis=-1, keepdims=True) *)
Definition tf_reduce_sum (x : tensor2 R) : tensor2 R :=
  Tensor2 (dim0 x) 1 [seq [:: sum_seq r] | r <- rows x].

Definition column (x : tensor2 R) (j : nat) : seq R :=
  [seq nth 0 r j | r <- rows x].

(* tf.transpose(x) *)
Definition tf_transpose (x : tensor2 R) : tensor2 R :=
  Tensor2 (dim1 x) (dim0 x) (mkseq (column x) (dim1 x)).

Definition dot (u v : seq R) : R :=
  sum_seq [seq p.1 * p.2 | p <- zip u v].

(* tf.matmul(a, b) *)
Definition tf_matmul (a b : tensor2 R) : result (tensor2 R) :=
  if dim1 a == dim0 b
  then Ok (Tensor2 (dim0 a) (dim1 b)
             [seq mkseq (fun j => dot r (column b j)) (dim1 b) | r <- rows a])
  else Raise ShapeMismatch.

(* ---------------------------------------------------------------- *)
(* rudders.math.euclid                                                *)
(* ---------------------------------------------------------------- *)

(* Squared Euclidean distance of two vectors. *)
Definition sq_dist (u v : seq R) : R :=
  sum_seq [seq (p.1 - p.2) ^+ 2 | p <- zip u v].

(** Modelled from the spec: rudders.math.euclid.euclidean_sq_distance is
    imported by euclidean.py but is not among the sources.  The spec calls
    it the squared distance between the two operands; the docstring of
    UserAttentiveEuclidean.similarity_score gives its shapes: x is B1 x d;
    without all_pairs y is B1 x d and the result is B1 x 1, with all_pairs
    y is B2 x d and the result is B1 x B2. *)
Definition euclidean_sq_distance (x y : tensor2 R) (all_pairs : bool)
  : result (tensor2 R) :=
  if all_pairs then
    if dim1 x == dim1 y
    then Ok (Tensor2 (dim0 x) (dim0 y)
               [seq [seq sq_dist u v | v <- rows y] | u <- rows x])
    else Raise ShapeMismatch
  else
    if (dim0 x == dim0 y) && (dim1 x == dim1 y)
    then Ok (Tensor2 (dim0 x) 1
               [seq [:: sq_dist p.1 p.2] | p <- zip (rows x) (rows y)])
    else Raise ShapeMismatch.

(** Modelled from the spec: rudders.math.euclid.
    euclidean_sq_distance_batched_all_pairs is imported by euclidean.py but
    is not among the sources.  Per the docstring of its caller, x is
    B1 x d, y is B1 x B2 x d and the result is B1 x B2: row i holds the
    squared distances from x[i] to each y[i][j]. *)
Definition euclidean_sq_distance_batched_all_pairs
  (x : tensor2 R) (y : tensor3 R) : result (tensor2 R) :=
  if (dim0 x == dim3_0 y) && (dim1 x == dim3_2 y)
  then Ok (Tensor2 (dim0 x) (dim3_1 y)
             [seq [seq sq_dist p.1 v | v <- p.2]
             | p <- zip (rows x) (blocks y)])
  else Raise ShapeMismatch.

(* The rank an operation expects of a dynamically typed argument. *)
Definition as_rank2 (x : tensor R) : result (tensor2 R) :=
  if x is Rank2 y then Ok y else Raise ShapeMismatch.

Definition as_rank3 (x : tensor R) : result (tensor3 R) :=
  if x is Rank3 y then Ok y else Raise ShapeMismatch.

(* ---------------------------------------------------------------- *)
(* Model state and the method monad                                   *)
(* ---------------------------------------------------------------- *)

(** Modelled from the spec: rudders.models.base (CFModel, MuRBase) is not
    among the sources.  Per the data model of the spec a model owns an
    entity embedding table and a relation embedding table of one fixed
    embedding dimension, and MuR models own per-relation transform
    parameters in addition.  Only MuREuclidean reads transforms. *)
Record model : Type := Model {
  dims : nat;
  entities : tensor2 R;
  relations : tensor2 R;
  transforms : tensor2 R
}.

Definition wf_table (d : nat) (w : tensor2 R) : bool :=
  wf2 w && (dim1 w == d).

Definition wf_model (self : model) : bool :=
  wf_table (dims self) (entities self)
  && wf_table (dims self) (relations self).

(* A MuR model has, in addition, one transform vector per relation. *)
Definition wf_mur (self : model) : bool :=
  [&& wf_model self, wf_table (dims self) (transforms self)
    & dim0 (transforms self) == dim0 (relations self)].

(* A method is a computation on self: it returns a result or raises, and
   hands self on. *)
Definition M (A : Type) : Type := model -> result A * model.

Definition ret A (a : A) : M A := fun self => (Ok a, self).

Definition bind A B (c : M A) (k : A -> M B) : M B :=
  fun self =>
    match c self with
    | (Ok a, self') => k a self'
    | (Raise e, self') => (Raise e, self')
    end.

Definition lift A (r : result A) : M A := fun self => (r, self).

(* self.<layer>(ids): calling one of the embedding layers of self. *)
Definition call_layer (w : model -> tensor2 R) (ids : seq int)
  : M (tensor2 R) :=
  fun self => (embedding (w self) ids, self).

End TensorOps.

Arguments ret {R A} _.
Arguments lift {R A} _.

Declare Scope method_scope.
Delimit Scope method_scope with method.
Notation "x <~ c ;; k" := (bind c (fun x => k))
  (at level 100, c at next level, right associativity) : method_scope.

(* ------------------------------------------------------------------ *)
(* rudders/models/euclidean.py                                         *)
(* ------------------------------------------------------------------ *)

Module CFEuclideanBase.
Section Methods.
Variable R : realDomainType.
Local Open Scope method_scope.

Definition get_rhs (input_tensor : tensor2 int) : M R (tensor2 R) :=
  ids <~ lift (slice_col input_tensor (-1)) ;;
  call_layer (@entities R) ids.

Definition similarity_score (lhs rhs : tensor2 R) (all_items : bool)
  : M R (tensor2 R) :=
  d <~ lift (euclidean_sq_distance lhs rhs all_items) ;;
  ret (tf_neg d).

End Methods.
Arguments get_rhs {R} _ _.
Arguments similarity_score {R} _ _ _ _.
End CFEuclideanBase.

Module SimpleFactor.
Section Methods.
Variable R : realDomainType.
Local Open Scope method_scope.

Definition get_rhs := @CFEuclideanBase.get_rhs R.

Definition get_lhs (input_tensor : tensor2 int) : M R (tensor2 R) :=
  e_ids <~ lift (slice_col input_tensor 0) ;;
  entities <~ call_layer (@entities R) e_ids ;;
  r_ids <~ lift (slice_col input_tensor 1) ;;
  relations <~ call_layer (@relations R) r_ids ;;
  lift (tf_multiply entities relations).

Definition similarity_score (lhs rhs : tensor2 R) (all_items : bool)
  : M R (tensor2 R) :=
  if all_items then lift (tf_matmul lhs (tf_transpose rhs))
  else
    prod <~ lift (tf_multiply lhs rhs) ;;
    ret (tf_reduce_sum prod).

End Methods.
Arguments get_rhs {R} _ _.
Arguments get_lhs {R} _ _.
Arguments similarity_score {R} _ _ _ _.
End SimpleFactor.

Module TransE.
Section Methods.
Variable R : realDomainType.
Local Open Scope method_scope.

Definition get_rhs := @CFEuclideanBase.get_rhs R.
Definition similarity_score := @CFEuclideanBase.similarity_score R.

Definition get_lhs (input_tensor : tensor2 int) : M R (tensor2 R) :=
  e_ids <~ lift (slice_col input_tensor 0) ;;
  entities <~ call_layer (@entities R) e_ids ;;
  r_ids <~ lift (slice_col input_tensor 1) ;;
  relations <~ call_layer (@relations R) r_ids ;;
  lift (tf_add entities relations).

End Methods.
Arguments get_rhs {R} _ _.
Arguments get_lhs {R} _ _.
Arguments similarity_score {R} _ _ _ _.
End TransE.

Module MuREuclidean.
Section Methods.
Variable R : realDomainType.
Local Open Scope method_scope.

Definition similarity_score := @CFEuclideanBase.similarity_score R.

Definition get_lhs (input_tensor : tensor2 int) : M R (tensor2 R) :=
  h_ids <~ lift (slice_col input_tensor 0) ;;
  heads <~ call_layer (@entities R) h_ids ;;
  r_ids <~ lift (slice_col input_tensor 1) ;;
  relation_transforms <~ call_layer (@transforms R) r_ids ;;
  lift (tf_multiply relation_transforms heads).

Definition get_rhs (input_tensor : tensor2 int) : M R (tensor2 R) :=
  t_ids <~ lift (slice_col input_tensor (-1)) ;;
  tails <~ call_layer (@entities R) t_ids ;;
  r_ids <~ lift (slice_col input_tensor 1) ;;
  relation_additions <~ call_layer (@relations R) r_ids ;;
  lift (tf_add tails relation_additions).

End Methods.
Arguments get_rhs {R} _ _.
Arguments get_lhs {R} _ _.
Arguments similarity_score {R} _ _ _ _.
End MuREuclidean.

Module RotRefEuclidean.
Section Methods.
Variable R : realDomainType.
Local Open Scope method_scope.

(* RotRefBase.get_heads is not among the sources: the method is taken as
   a parameter. *)
Variable get_heads : tensor2 int -> M R (tensor2 R).

Definition similarity_score := @CFEuclideanBase.similarity_score R.

Definition get_lhs (input_tensor : tensor2 int) : M R (tensor2 R) :=
  head_embeds <~ get_heads input_tensor ;;
  r_ids <~ lift (slice_col input_tensor 1) ;;
  rel_embeds <~ call_layer (@relations R) r_ids ;;
  lift (tf_add head_embeds rel_embeds).

End Methods.
Arguments get_lhs {R} _ _ _.
Arguments similarity_score {R} _ _ _ _.
End RotRefEuclidean.

Module UserAttentiveEuclidean.
Section Methods.
Variable R : realDomainType.
Local Open Scope method_scope.

Definition similarity_score (lhs : tensor2 R) (rhs : tensor R)
  (all_items : bool) : M R (tensor2 R) :=
  if all_items then
    rhs3 <~ lift (as_rank3 rhs) ;;
    d <~ lift (euclidean_sq_distance_batched_all_pairs lhs rhs3) ;;
    ret (tf_neg d)
  else
    rhs2 <~ lift (as_rank2 rhs) ;;
    d <~ lift (euclidean_sq_distance lhs rhs2 false) ;;
    ret (tf_neg d).

End Methods.
Arguments similarity_score {R} _ _ _ _.
End UserAttentiveEuclidean.

(* ------------------------------------------------------------------ *)
(* Vocabulary of the statements                                        *)
(* ------------------------------------------------------------------ *)

(* Column k of every row of the batch holds an id of a table with n
   entries. *)
Definition ids_in (n : nat) (input : tensor2 int) (k : nat) : bool :=
  all (fun r => in_table n (nth 0 r k)) (rows input).

Section Statements.

Variable R : realDomainType.
Implicit Types (self : model R) (x y z w lhs rhs : tensor2 R).
Implicit Types (input : tensor2 int).

Local Open Scope method_scope.

(* A batch of (head, relation, tail) triples within the bounds of the
   tables of self. *)
Definition triples_in_bounds self input : bool :=
  [&& wf2 input, dim1 input == 3%N,
      ids_in (dim0 (entities self)) input 0,
      ids_in (dim0 (relations self)) input 1
    & ids_in (dim0 (entities self)) input 2].

(* The embedding vector of table w stored at the id found at (i, k). *)
Definition vec_at w input (i k : nat) : seq R :=
  row w (absz (entry 0 input i k)).

(* The rows of table w at the ids of column k of the batch. *)
Definition lookup w input (k : nat) : tensor2 R :=
  Tensor2 (size (rows input)) (dim1 w)
    [seq row w (absz (nth 0 r k)) | r <- rows input].

(* The batch of vectors op (wa at column a) (wb at column b), in
   embedding dimension d. *)
Definition pointwise (op : R -> R -> R) (wa wb : tensor2 R) input
    (a b d : nat) : tensor2 R :=
  Tensor2 (size (rows input)) d
    (mkseq (fun i => mkseq (fun j =>
       op (nth 0 (vec_at wa input i a) j) (nth 0 (vec_at wb input i b) j))
       d) (size (rows input))).

(* Entrywise sum and product of two vectors. *)
Definition vadd (u v : seq R) : seq R := [seq p.1 + p.2 | p <- zip u v].
Definition vmul (u v : seq R) : seq R := [seq p.1 * p.2 | p <- zip u v].

(* x[i:i+1]: row i as a batch of one. *)
Definition row_tensor x (i : nat) : tensor2 R :=
  Tensor2 1 (dim1 x) [:: row x i].

(* y[:, j, :]: item j of every block of a rank-3 tensor. *)
Definition item_slice (y : tensor3 R) (j : nat) : tensor2 R :=
  Tensor2 (dim3_0 y) (dim3_2 y) [seq nth [::] b j | b <- blocks y].

(* The score of a batch: similarity_score applied to get_lhs and get_rhs
   of that batch. *)
Definition score_batch
    (get_lhs get_rhs : tensor2 int -> M R (tensor2 R))
    (similarity_score : tensor2 R -> tensor2 R -> bool -> M R (tensor2 R))
    input (all_items : bool) : M R (tensor2 R) :=
  lhs <~ get_lhs input ;;
  rhs <~ get_rhs input ;;
  similarity_score lhs rhs all_items.

(* A method that only reads self. *)
Definition pure_read (A : Type) (c : M R A) : Prop :=
  forall self, (c self).2 = self.

(* The model classes whose get_lhs, get_rhs and similarity_score are all
   given by euclidean.py, with Python's method resolution. *)
Inductive model_class : Type := SimpleFactorC | TransEC | MuREuclideanC.

Definition get_lhs_of (cls : model_class) : tensor2 int -> M R (tensor2 R) :=
  match cls with
  | SimpleFactorC => SimpleFactor.get_lhs
  | TransEC => TransE.get_lhs
  | MuREuclideanC => MuREuclidean.get_lhs
  end.

Definition get_rhs_of (cls : model_class) : tensor2 int -> M R (tensor2 R) :=
  match cls with
  | SimpleFactorC => SimpleFactor.get_rhs
  | TransEC => TransE.get_rhs
  | MuREuclideanC => MuREuclidean.get_rhs
  end.

Definition similarity_score_of (cls : model_class)
  : tensor2 R -> tensor2 R -> bool -> M R (tensor2 R) :=
  match cls with
  | SimpleFactorC => SimpleFactor.similarity_score
  | TransEC => TransE.similarity_score
  | MuREuclideanC => MuREuclidean.similarity_score
  end.

(* The tables a model of the class owns are well formed. *)
Definition wf_of (cls : model_class) self : bool :=
  if cls is MuREuclideanC then wf_mur self else wf_model self.

(* One call of a method of the file. *)
Inductive invocation : Type :=
  | Get_lhs of model_class & tensor2 int
  | Get_rhs of model_class & tensor2 int
  | Similarity_score of model_class & tensor2 R & tensor2 R & bool
  | UserAttentive_similarity_score of tensor2 R & tensor R & bool.

Definition invoke (c : invocation) : M R (tensor2 R) :=
  match c with
  | Get_lhs cls input => get_lhs_of cls input
  | Get_rhs cls input => get_rhs_of cls input
  | Similarity_score cls lhs rhs all_items =>
      similarity_score_of cls lhs rhs all_items
  | UserAttentive_similarity_score lhs rhs all_items =>
      UserAttentiveEuclidean.similarity_score lhs rhs all_items
  end.

Definition broadcastable (m n : nat) : bool :=
  [|| m == n, m == 1%N | n == 1%N].

(* Every id the call looks up lies within its table. *)
Definition ids_ok (c : invocation) self : bool :=
  match c with
  | Get_lhs MuREuclideanC input =>
      ids_in (dim0 (entities self)) input 0
      && ids_in (dim0 (transforms self)) input 1
  | Get_lhs _ input =>
      ids_in (dim0 (entities self)) input 0
      && ids_in (dim0 (relations self)) input 1
  | Get_rhs MuREuclideanC input =>
      ids_in (dim0 (entities self)) input (dim1 input).-1
      && ids_in (dim0 (relations self)) input 1
  | Get_rhs _ input => ids_in (dim0 (entities self)) input (dim1 input).-1
  | _ => true
  end.

(* The shapes of the operands of the call fit its operations. *)
Definition shapes_ok (c : invocation) self : bool :=
  match c with
  | Get_lhs MuREuclideanC input =>
      (1 < dim1 input)%N
      && broadcastable (dim1 (transforms self)) (dim1 (entities self))
  | Get_lhs _ input =>
      (1 < dim1 input)%N
      && broadcastable (dim1 (entities self)) (dim1 (relations self))
  | Get_rhs MuREuclideanC input =>
      (1 < dim1 input)%N
      && broadcastable (dim1 (entities self)) (dim1 (relations self))
  | Get_rhs _ input => (0 < dim1 input)%N
  | Similarity_score SimpleFactorC lhs rhs all_items =>
      if all_items then dim1 lhs == dim1 rhs
      else broadcastable (dim0 lhs) (dim0 rhs)
           && broadcastable (dim1 lhs) (dim1 rhs)
  | Similarity_score _ lhs rhs all_items =>
      if all_items then dim1 lhs == dim1 rhs
      else (dim0 lhs == dim0 rhs) && (dim1 lhs == dim1 rhs)
  | UserAttentive_similarity_score lhs (Rank3 rhs) true =>
      (dim0 lhs == dim3_0 rhs) && (dim1 lhs == dim3_2 rhs)
  | UserAttentive_similarity_score lhs (Rank2 rhs) false =>
      (dim0 lhs == dim0 rhs) && (dim1 lhs == dim1 rhs)
  | UserAttentive_similarity_score _ _ _ => false
  end.

Definition raises (A : Type) (e : tf_error) (r : result A) : bool :=
  match r, e with
  | Raise OutOfRange, OutOfRange => true
  | Raise ShapeMismatch, ShapeMismatch => true
  | _, _ => false
  end.

End Statements.

(* ------------------------------------------------------------------ *)
(* A small model over the integers                                     *)
(* ------------------------------------------------------------------ *)

(* Three entities and two relations in dimension 2. *)
Definition demo_model : model int :=
  Model 2
    (Tensor2 3 2 [:: [:: 1; 2]; [:: 3; -4]; [:: 0; 7]])
    (Tensor2 2 2 [:: [:: 10; 20]; [:: 30; 40]])
    (Tensor2 2 2 [:: [:: 2; 3]; [:: 4; 5]]).

(* Two triples: (0, 1, 2) and (2, 0, 1). *)
Definition demo_batch : tensor2 int :=
  Tensor2 2 3 [:: [:: 0; 1; 2]; [:: 2; 0; 1]].

(* A batch with four columns: the ids in the two middle columns are not
   ids of any table. *)
Definition demo_wide_batch : tensor2 int :=
  Tensor2 2 4 [:: [:: 0; 7; 9; 2]; [:: 2; 8; 9; 1]].

Definition demo_lhs : tensor2 int := Tensor2 2 2 [:: [:: 1; 2]; [:: 3; 4]].

Definition demo_rhs : tensor2 int := Tensor2 2 2 [:: [:: 1; 2]; [:: 0; -1]].

(* Three candidate items for each of the two rows of demo_lhs. *)
Definition demo_items : tensor3 int :=
  Tensor3 2 3 2
    [:: [:: [:: 1; 2]; [:: 0; 0]; [:: 2; 2]];
        [:: [:: 3; 4]; [:: 1; 1]; [:: 0; 5]]].

(* ------------------------------------------------------------------ *)
(* Batches: columns, single rows, the empty batch                      *)
(* ------------------------------------------------------------------ *)

(* input_tensor[:, k] as a list of ids. *)
Definition col (input : tensor2 int) (k : nat) : seq int :=
  [seq nth 0 r k | r <- rows input].

(* input_tensor[i:i+1]: row i as a batch of one. *)
Definition batch_row (input : tensor2 int) (i : nat) : tensor2 int :=
  Tensor2 1 (dim1 input) [:: row input i].

(* The batch with no rows and c columns. *)
Definition empty_batch (c : nat) : tensor2 int := Tensor2 0 c [::].

(* Every vector of the table is v. *)
Definition constant_table (R : realDomainType) (v : seq R) (w : tensor2 R)
  : bool :=
  all (fun r => r == v) (rows w).

(* A get_heads that looks the head entity up, for the demo model. *)
Definition demo_get_heads (input : tensor2 int) : M int (tensor2 int) :=
  bind (lift (slice_col input 0)) (fun ids => call_layer (@entities int) ids).

(* The demo model with neutral relation parameters: zero relation
   vectors, unit transform vectors. *)
Definition neutral_model (rel : int) : model int :=
  Model 2
    (Tensor2 3 2 [:: [:: 1; 2]; [:: 3; -4]; [:: 0; 7]])
    (Tensor2 2 2 [:: [:: rel; rel]; [:: rel; rel]])
    (Tensor2 2 2 [:: [:: 1; 1]; [:: 1; 1]]).

(* The triples of demo_batch followed by two columns of other data. *)
Definition demo_padded_batch : tensor2 int :=
  Tensor2 2 5 [:: [:: 0; 1; 2; 9; 9]; [:: 2; 0; 1; 9; 9]].

(* tf.concat([x, y], axis=0): the rows of x followed by those of y. *)
Definition concat0 (T : Type) (x y : tensor2 T) : tensor2 T :=
  Tensor2 (dim0 x + dim0 y) (dim1 x) (rows x ++ rows y).

(* A batch with at least two columns whose head, relation and tail ids
   (columns 0, 1 and the last one) are within the tables of self. *)
Definition batch_in_bounds (R : realDomainType) (self : model R)
  (input : tensor2 int) : bool :=
  [&& wf2 input, (1 < dim1 input)%N,
      ids_in (dim0 (entities self)) input 0,
      ids_in (dim0 (relations self)) input 1
    & ids_in (dim0 (entities self)) input (dim1 input).-1].

(* One candidate row to score a batch against. *)
Definition demo_single_row : tensor2 int := Tensor2 1 2 [:: [:: 10; 100]].

(* What demo_get_heads returns on demo_batch: entities 0 and 2. *)
Definition demo_heads : tensor2 int := Tensor2 2 2 [:: [:: 1; 2]; [:: 0; 7]].

(* One more triple, (1, 1, 0). *)
Definition demo_second_batch : tensor2 int := Tensor2 1 3 [:: [:: 1; 1; 0]].

(* ------------------------------------------------------------------ *)
(* The distance score on IEEE binary64 scalars                         *)
(* ------------------------------------------------------------------ *)

(* CFEuclideanBase.similarity_score once more, with the scalars of the
   tensors the program runs on: binary64 floating-point numbers with
   their rounding, underflow, infinities and NaN.  The method does not
   read self, so it is given as a function of its arguments. *)
Module Binary64.

Import PrimFloat.

Definition sum_seq (s : seq float) : float := foldr PrimFloat.add 0%float s.

(* Squared distance as the sum of the squared differences. *)
Definition sq_dist (u v : seq float) : float :=
  sum_seq [seq PrimFloat.mul (PrimFloat.sub p.1 p.2) (PrimFloat.sub p.1 p.2)
          | p <- zip u v].


(** Modelled from the spec: rudders.math.euclid.euclidean_sq_distance is
    not among the sources.  The spec calls it the squared distance of the
    operands; which of the two usual formulas it evaluates is not known,
    so the formula for one pair of vectors is the parameter dist.  Shapes
    as for the exact scalars. *)
Definition euclidean_sq_distance (dist : seq float -> seq float -> float)
    (x y : tensor2 float) (all_pairs : bool) : result (tensor2 float) :=
  if all_pairs then
    if dim1 x == dim1 y
    then Ok (Tensor2 (dim0 x) (dim0 y)
               [seq [seq dist u v | v <- rows y] | u <- rows x])
    else Raise ShapeMismatch
  else
    if (dim0 x == dim0 y) && (dim1 x == dim1 y)
    then Ok (Tensor2 (dim0 x) 1
               [seq [:: dist p.1 p.2] | p <- zip (rows x) (rows y)])
    else Raise ShapeMismatch.

Definition tf_neg (x : tensor2 float) : tensor2 float :=
  Tensor2 (dim0 x) (dim1 x) [seq [seq PrimFloat.opp a | a <- r] | r <- rows x].

Definition similarity_score (dist : seq float -> seq float -> float)
    (lhs rhs : tensor2 float) (all_items : bool) : result (tensor2 float) :=
  match euclidean_sq_distance dist lhs rhs all_items with
  | Ok d => Ok (tf_neg d)
  | Raise e => Raise e
  end.




End Binary64.


(* ------------------------------------------------------------------ *)
(* The methods on the demo model                                       *)
(* ------------------------------------------------------------------ *)

(* Row 0: head [1; 2] + relation [30; 40] against tail [0; 7]:
   -(31^2 + 35^2). *)
Example demo_TransE_score :
  (score_batch TransE.get_lhs TransE.get_rhs TransE.similarity_score
     demo_batch false demo_model).1
  = Ok (Tensor2 2 1 [:: [:: -2186]; [:: -1010]]).
Proof. by []. Qed.

Example demo_MuREuclidean_score :
  (score_batch MuREuclidean.get_lhs MuREuclidean.get_rhs
     MuREuclidean.similarity_score demo_batch false demo_model).1
  = Ok (Tensor2 2 1 [:: [:: -2045]; [:: -194]]).
Proof. by []. Qed.

Example demo_SimpleFactor_score :
  (score_batch SimpleFactor.get_lhs SimpleFactor.get_rhs
     SimpleFactor.similarity_score demo_batch false demo_model).1
  = Ok (Tensor2 2 1 [:: [:: 560]; [:: -560]]).
Proof. by []. Qed.

Example demo_SimpleFactor_all_items :
  (SimpleFactor.similarity_score demo_lhs demo_rhs true demo_model).1
  = Ok (Tensor2 2 2 [:: [:: 5; -2]; [:: 11; -4]]).
Proof. by []. Qed.

Example demo_get_rhs_wide :
  (CFEuclideanBase.get_rhs demo_wide_batch demo_model).1
  = Ok (Tensor2 2 2 [:: [:: 0; 7]; [:: 3; -4]]).
Proof. by []. Qed.

(* Entity id 3 does not exist; neither does id -1. *)
Example demo_id_too_large :
  (TransE.get_lhs (Tensor2 1 3 [:: [:: 3; 0; 0]]) demo_model).1
  = Raise OutOfRange.
Proof. by []. Qed.

Example demo_id_negative :
  (TransE.get_lhs (Tensor2 1 3 [:: [:: -1; 0; 0]]) demo_model).1
  = Raise OutOfRange.
Proof. by []. Qed.

(* A batch with one column has no column 1, but it has a last column. *)
Example demo_one_column_lhs :
  (TransE.get_lhs (Tensor2 2 1 [:: [:: 0]; [:: 1]]) demo_model).1
  = Raise ShapeMismatch.
Proof. by []. Qed.

Example demo_one_column_rhs :
  (CFEuclideanBase.get_rhs (Tensor2 2 1 [:: [:: 0]; [:: 1]]) demo_model).1
  = Ok (Tensor2 2 2 [:: [:: 1; 2]; [:: 3; -4]]).
Proof. by []. Qed.

Example demo_no_column_rhs :
  (CFEuclideanBase.get_rhs (Tensor2 0 0 [::]) demo_model).1
  = Raise ShapeMismatch.
Proof. by []. Qed.

(* The product of SimpleFactor broadcasts a single row; columns of
   lengths 2 and 3 do not broadcast. *)
Example demo_broadcast :
  (SimpleFactor.similarity_score demo_lhs (Tensor2 1 2 [:: [:: 10; 100]])
     false demo_model).1
  = Ok (Tensor2 2 1 [:: [:: 210]; [:: 430]]).
Proof. by []. Qed.

Example demo_no_broadcast :
  (SimpleFactor.similarity_score demo_lhs
     (Tensor2 2 3 [:: [:: 1; 2; 3]; [:: 1; 2; 3]]) false demo_model).1
  = Raise ShapeMismatch.
Proof. by []. Qed.

Example demo_UserAttentive_all_items :
  (UserAttentiveEuclidean.similarity_score
     demo_lhs (Rank3 demo_items) true demo_model).1
  = Ok (Tensor2 2 3 [:: [:: 0; -5; -1]; [:: 0; -13; -10]]).
Proof. by []. Qed.

(* With all_items the user-attentive score needs a rank-3 rhs. *)
Example demo_UserAttentive_rank :
  (UserAttentiveEuclidean.similarity_score
     demo_lhs (Rank2 demo_rhs) true demo_model).1
  = Raise ShapeMismatch.
Proof. by []. Qed.
(* ------------------------------------------------------------------ *)
(* Basic facts on the tensor operations                                *)
(* ------------------------------------------------------------------ *)

Section TensorFacts.

Variable R : realDomainType.
Implicit Types (x y z w : tensor2 R) (input : tensor2 int) (u v : seq R).

Lemma mkseq_ext (T : Type) (f g : nat -> T) (n : nat) :
  (forall i, (i < n)%N -> f i = g i) -> mkseq f n = mkseq g n.
Proof.
move=> fg; apply/eq_in_map => i; rewrite mem_iota add0n => /andP[_].
exact: fg.
Qed.

Lemma wf2_size (T : Type) (a : tensor2 T) : wf2 a -> size (rows a) = dim0 a.
Proof. by case/andP=> /eqP. Qed.

Lemma wf2_row (T : Type) (a : tensor2 T) (i : nat) :
  wf2 a -> (i < dim0 a)%N -> size (row a i) = dim1 a.
Proof.
case/andP=> /eqP sz /all_nthP h lt_i; apply/eqP/h.
by rewrite sz.
Qed.

Lemma sum_seqE (s : seq R) : sum_seq s = \sum_(a <- s) a.
Proof. exact: foldrE. Qed.

Lemma sq_distE (d : nat) u v :
  size u = d -> size v = d ->
  sq_dist u v = \sum_(k < d) (nth 0 u k - nth 0 v k) ^+ 2.
Proof.
move=> su sv.
rewrite /sq_dist sum_seqE big_map (big_nth (0, 0)) size_zip su sv minnn.
rewrite big_mkord; apply: eq_bigr => k _.
by rewrite nth_zip ?su ?sv.
Qed.

Lemma dotE (d : nat) u v :
  size u = d -> size v = d ->
  dot u v = \sum_(k < d) nth 0 u k * nth 0 v k.
Proof.
move=> su sv.
rewrite /dot sum_seqE big_map (big_nth (0, 0)) size_zip su sv minnn.
rewrite big_mkord; apply: eq_bigr => k _.
by rewrite nth_zip ?su ?sv.
Qed.

Lemma bshape_same (n : nat) : bshape n n = Some n.
Proof. by rewrite /bshape eqxx. Qed.

Lemma bidx_lt (m i : nat) : (i < m)%N -> bidx m i = i.
Proof. by rewrite /bidx; case: eqP => // ->; case: i. Qed.

(* On operands of one shape, broadcasting is the plain entrywise map. *)
Lemma elementwise_same (f : R -> R -> R) x y :
  dim0 x = dim0 y -> dim1 x = dim1 y ->
  elementwise f x y =
  Ok (Tensor2 (dim0 x) (dim1 x)
        (mkseq (fun i => mkseq (fun j =>
           f (entry 0 x i j) (entry 0 y i j)) (dim1 x)) (dim0 x))).
Proof.
move=> e0 e1; rewrite /elementwise -e0 -e1 !bshape_same.
congr (Ok (Tensor2 _ _ _)); apply: mkseq_ext => i lt_i.
by apply: mkseq_ext => j lt_j; rewrite !bidx_lt.
Qed.

Lemma slice_colE input (c : int) (k : nat) :
  py_index (dim1 input) c = Some k ->
  slice_col input c = Ok [seq nth 0 r k | r <- rows input].
Proof. by rewrite /slice_col => ->. Qed.

Lemma embedding_col w input (k : nat) :
  ids_in (dim0 w) input k ->
  embedding w [seq nth 0 r k | r <- rows input] =
  Ok (Tensor2 (size (rows input)) (dim1 w)
        [seq row w (absz (nth 0 r k)) | r <- rows input]).
Proof.
by move=> h; rewrite /embedding all_map [all _ _]h size_map -map_comp.
Qed.

End TensorFacts.

(* ------------------------------------------------------------------ *)
(* What the methods compute                                            *)
(* ------------------------------------------------------------------ *)

Section MethodFacts.

Variable R : realDomainType.
Implicit Types (self : model R) (x y z w lhs rhs : tensor2 R).
Implicit Types (input : tensor2 int) (u v : seq R).


Lemma py_index_last (n : nat) : (0 < n)%N -> py_index n (-1) = Some n.-1.
Proof. by case: n => // n _; rewrite /= subn1. Qed.

Lemma py_index_nat (n k : nat) : (k < n)%N -> py_index n k%:Z = Some k.
Proof. by rewrite /= => ->. Qed.

Lemma row_lookup w input (i k : nat) :
  (i < size (rows input))%N -> row (lookup w input k) i = vec_at w input i k.
Proof. by move=> lt_i; rewrite /row /= (nth_map [::]). Qed.

Lemma wf2_lookup w input (k : nat) (d : nat) :
  wf_table d w -> ids_in (dim0 w) input k ->
  wf2 (lookup w input k) /\ dim1 (lookup w input k) = d.
Proof.
case/andP=> wf_w /eqP dw /allP ids; split=> //.
rewrite /wf2 /= size_map eqxx /=; apply/allP => _ /mapP[r r_in ->].
have:= ids r r_in; case: (nth 0 r k) => //= j lt_j.
by rewrite [size _](wf2_row wf_w lt_j).
Qed.

Lemma get_rhs_run self input :
  (0 < dim1 input)%N ->
  ids_in (dim0 (entities self)) input (dim1 input).-1 ->
  CFEuclideanBase.get_rhs input self =
  (Ok (lookup (entities self) input (dim1 input).-1), self).
Proof.
move=> pos ids.
rewrite /CFEuclideanBase.get_rhs /bind /lift /call_layer.
by rewrite (slice_colE (py_index_last pos)) embedding_col.
Qed.

(* The two lookups shared by every get_lhs of the file and by
   MuREuclidean.get_rhs: column a in table wa, then column 1 in wb. *)
Lemma two_lookups_run (wa wb : model R -> tensor2 R) (c : int) (a : nat)
    (f : tensor2 R -> tensor2 R -> result (tensor2 R)) self input :
  py_index (dim1 input) c = Some a -> (1 < dim1 input)%N ->
  ids_in (dim0 (wa self)) input a -> ids_in (dim0 (wb self)) input 1 ->
  bind (lift (slice_col input c)) (fun a_ids =>
    bind (call_layer wa a_ids) (fun xa =>
      bind (lift (slice_col input 1)) (fun b_ids =>
        bind (call_layer wb b_ids) (fun xb => lift (f xa xb))))) self =
  (f (lookup (wa self) input a) (lookup (wb self) input 1), self).
Proof.
move=> ca lt1 ia ib; rewrite /bind /lift /call_layer.
rewrite (slice_colE ca) embedding_col //.
by rewrite (slice_colE (py_index_nat lt1)) embedding_col.
Qed.

(* Entries of the sum or product of two lookups in tables of one
   embedding dimension. *)
Lemma elementwise_lookup (f : R -> R -> R) (wa wb : tensor2 R) input
    (a b d : nat) :
  dim1 wa = d -> dim1 wb = d ->
  elementwise f (lookup wa input a) (lookup wb input b) =
  Ok (Tensor2 (size (rows input)) d
        (mkseq (fun i => mkseq (fun j =>
           f (nth 0 (vec_at wa input i a) j) (nth 0 (vec_at wb input i b) j))
           d) (size (rows input)))).
Proof.
move=> da db; rewrite elementwise_same /= ?da ?db //.
congr (Ok (Tensor2 _ _ _)); apply: mkseq_ext => i lt_i.
by apply: mkseq_ext => j _; rewrite /entry !row_lookup.
Qed.

End MethodFacts.

(* ------------------------------------------------------------------ *)
(* Scores                                                              *)
(* ------------------------------------------------------------------ *)

Section Scores.

Variable R : realDomainType.
Implicit Types (self : model R) (x y z w lhs rhs : tensor2 R).
Implicit Types (input : tensor2 int) (u v : seq R).

Local Open Scope method_scope.


Lemma similarity_score_run lhs rhs self :
  dim0 lhs = dim0 rhs -> dim1 lhs = dim1 rhs ->
  CFEuclideanBase.similarity_score lhs rhs false self =
  (Ok (Tensor2 (dim0 lhs) 1
         [seq [:: - sq_dist p.1 p.2] | p <- zip (rows lhs) (rows rhs)]),
   self).
Proof.
move=> e0 e1.
rewrite /CFEuclideanBase.similarity_score /bind /lift /ret.
rewrite /euclidean_sq_distance e0 e1 !eqxx /= /tf_neg /=.
by rewrite -map_comp.
Qed.

Lemma nth_zip_rows (A B : Type) (g : seq A -> seq A -> B)
    (a b : seq (seq A)) (i : nat) :
  size a = size b -> (i < size a)%N ->
  nth [::] [seq [:: g p.1 p.2] | p <- zip a b] i =
  [:: g (nth [::] a i) (nth [::] b i)].
Proof.
move=> sab lt_i.
by rewrite (nth_map ([::], [::])) ?size_zip -?sab ?minnn // nth_zip.
Qed.

Lemma triples_unpack self input :
  triples_in_bounds self input ->
  [/\ wf2 input, dim1 input = 3%N,
      ids_in (dim0 (entities self)) input 0,
      ids_in (dim0 (relations self)) input 1
    & ids_in (dim0 (entities self)) input 2].
Proof. by case/and5P=> ? /eqP ? ? ? ?; split. Qed.

(** C1. For a batch of (head, relation, tail) id triples within table
    bounds, the TransE score (similarity_score applied to get_lhs and
    get_rhs of the batch) is, row by row, the negated squared Euclidean
    distance between head embedding + relation embedding and the tail
    embedding. *)
Theorem TransE_score_neg_sq_distance self input :
  wf_model self -> triples_in_bounds self input ->
  exists score,
    [/\ score_batch TransE.get_lhs TransE.get_rhs TransE.similarity_score
          input false self = (Ok score, self),
        dim0 score = dim0 input, dim1 score = 1%N
      & forall i, (i < dim0 input)%N ->
          row score i =
          [:: - \sum_(k < dims self)
                 (nth 0 (vec_at (entities self) input i 0) k
                  + nth 0 (vec_at (relations self) input i 1) k
                  - nth 0 (vec_at (entities self) input i 2) k) ^+ 2]].
Proof.
case/andP=> wfE wfR /triples_unpack[wf_in d3 ih ir it].
have [/andP[_ /eqP dE] /andP[_ /eqP dR]] := (wfE, wfR).
have szB := wf2_size wf_in.
have lhsE := @two_lookups_run R (@entities R) (@relations R) 0 0%N
  (@tf_add R) self input.
rewrite d3 /tf_add (elementwise_lookup _ _ _ _ dE dR) in lhsE.
rewrite /score_batch /TransE.get_rhs /TransE.similarity_score.
rewrite /bind [TransE.get_lhs _ _]lhsE // get_rhs_run ?d3 //.
rewrite similarity_score_run //= ?dE //.
eexists; split; first by []; rewrite ?szB // => i lt_i.
have [wfT dT] := wf2_lookup (k := 2) wfE it.
rewrite /row /= (nth_zip_rows (fun a b => - sq_dist a b)) ?size_mkseq
  ?size_map ?szB //; congr [:: - _].
rewrite nth_mkseq //.
rewrite -[nth [::] _ i]/(row (lookup (entities self) input 2) i).
have szT : size (row (lookup (entities self) input 2) i) = dims self.
  by rewrite -dT; apply: wf2_row => //=; rewrite szB.
rewrite (sq_distE (d := dims self)) ?size_mkseq //.
by apply: eq_bigr => k _; rewrite nth_mkseq // row_lookup ?szB.
Qed.

Lemma mkseq_zip (f : R -> R -> R) (d : nat) u v :
  size u = d -> size v = d ->
  mkseq (fun j => f (nth 0 u j) (nth 0 v j)) d = [seq f p.1 p.2 | p <- zip u v].
Proof.
move=> su sv; apply: (@eq_from_nth _ 0).
  by rewrite size_mkseq size_map size_zip su sv minnn.
move=> j; rewrite size_mkseq => lt_j; rewrite nth_mkseq //.
by rewrite (nth_map (0, 0)) ?size_zip ?su ?sv ?minnn // nth_zip ?su ?sv.
Qed.

Lemma size_vec_at w input (i k d : nat) :
  wf_table d w -> ids_in (dim0 w) input k -> wf2 input -> (i < dim0 input)%N ->
  size (vec_at w input i k) = d.
Proof.
move=> wf_w ids wf_in lt_i; have [wfL dL] := wf2_lookup wf_w ids.
have szB := wf2_size wf_in.
by rewrite -row_lookup ?szB // -dL; apply: wf2_row => //=; rewrite szB.
Qed.

Lemma mur_unpack self :
  wf_mur self ->
  [/\ wf_table (dims self) (entities self),
      wf_table (dims self) (relations self),
      wf_table (dims self) (transforms self)
    & dim0 (transforms self) = dim0 (relations self)].
Proof. by case/and3P=> /andP[? ?] ? /eqP ?; split. Qed.

(** C2. For a batch of (head, relation, tail) id triples within table
    bounds, MuREuclidean.get_lhs returns the elementwise product of the
    transform vector of the relation with the head embedding, get_rhs
    returns the tail embedding plus the relation vector, and the score is
    the negated squared Euclidean distance between the two. *)
Theorem MuREuclidean_lhs_rhs_score self input :
  wf_mur self -> triples_in_bounds self input ->
  exists lhs rhs score,
    [/\ MuREuclidean.get_lhs input self = (Ok lhs, self),
        MuREuclidean.get_rhs input self = (Ok rhs, self),
        score_batch MuREuclidean.get_lhs MuREuclidean.get_rhs
          MuREuclidean.similarity_score input false self = (Ok score, self)
      & forall i, (i < dim0 input)%N ->
          [/\ row lhs i = vmul (vec_at (transforms self) input i 1)
                               (vec_at (entities self) input i 0),
              row rhs i = vadd (vec_at (entities self) input i 2)
                               (vec_at (relations self) input i 1)
            & row score i =
              [:: - \sum_(k < dims self)
                     (nth 0 (vec_at (transforms self) input i 1) k
                      * nth 0 (vec_at (entities self) input i 0) k
                      - (nth 0 (vec_at (entities self) input i 2) k
                         + nth 0 (vec_at (relations self) input i 1) k))
                     ^+ 2]]].
Proof.
case/mur_unpack=> wfE wfR wfT nT /triples_unpack[wf_in d3 ih ir it].
have [/andP[_ /eqP dE] /andP[_ /eqP dR]] := (wfE, wfR).
have /andP[_ /eqP dT] := wfT.
have szB := wf2_size wf_in.
have irT : ids_in (dim0 (transforms self)) input 1 by rewrite nT.
have lhsE := @two_lookups_run R (@entities R) (@transforms R) 0 0%N
  (fun a b => tf_multiply b a) self input.
have rhsE := @two_lookups_run R (@entities R) (@relations R) (-1) 2%N
  (@tf_add R) self input.
rewrite d3 /tf_multiply (elementwise_lookup _ _ _ _ dT dE) in lhsE.
rewrite d3 /tf_add (elementwise_lookup _ _ _ _ dE dR) in rhsE.
have {}lhsE := lhsE erefl isT ih irT; have {}rhsE := rhsE erefl isT it ir.
do 3!eexists; split; [exact: lhsE | exact: rhsE | | ].
  rewrite /score_batch /bind [MuREuclidean.get_lhs _ _]lhsE.
  rewrite [MuREuclidean.get_rhs _ _]rhsE.
  by rewrite [MuREuclidean.similarity_score _ _ _ _]similarity_score_run.
move=> i lt_i.
have sz w k (ww : wf_table (dims self) w) (ii : ids_in (dim0 w) input k) :=
  size_vec_at ww ii wf_in lt_i.
rewrite /row /= (nth_zip_rows (fun a b => - sq_dist a b)) ?size_mkseq ?szB //.
rewrite !nth_mkseq //; split; try by rewrite mkseq_zip ?sz.
congr [:: - _]; rewrite (sq_distE (d := dims self)) ?size_mkseq //.
by apply: eq_bigr => k _; rewrite !nth_mkseq.
Qed.

End Scores.


(* ------------------------------------------------------------------ *)
(* The all-items paths against the per-row paths                       *)
(* ------------------------------------------------------------------ *)

Section AllItems.

Variable R : realDomainType.
Implicit Types (self : model R) (x y z w lhs rhs : tensor2 R).
Implicit Types (u v : seq R).

Lemma wf3_size (y : tensor3 R) : wf3 y -> size (blocks y) = dim3_0 y.
Proof. by case/andP=> /eqP. Qed.

Lemma wf3_block (y : tensor3 R) (i : nat) :
  wf3 y -> (i < dim3_0 y)%N -> size (nth [::] (blocks y) i) = dim3_1 y.
Proof.
case/andP=> /eqP sz /(all_nthP [::]) h lt_i.
by have /andP[/eqP] : _ && _ := h i (etrans (congr1 _ sz) lt_i).
Qed.

Lemma wf3_row (y : tensor3 R) (i j : nat) :
  wf3 y -> (i < dim3_0 y)%N -> (j < dim3_1 y)%N ->
  size (nth [::] (nth [::] (blocks y) i) j) = dim3_2 y.
Proof.
move=> wf_y lt_i lt_j; have szb := wf3_block wf_y lt_i.
case/andP: wf_y => /eqP sz /(all_nthP [::]) h.
have /andP[_ /(all_nthP [::]) hr] : (size (nth [::] (blocks y) i) == dim3_1 y)
    && all (fun r => size r == dim3_2 y) (nth [::] (blocks y) i).
  by apply: h; rewrite sz.
by apply/eqP/hr; rewrite szb.
Qed.

Lemma user_attentive_false_run lhs rhs self :
  dim0 lhs = dim0 rhs -> dim1 lhs = dim1 rhs ->
  UserAttentiveEuclidean.similarity_score lhs (Rank2 rhs) false self =
  (Ok (Tensor2 (dim0 lhs) 1
         [seq [:: - sq_dist p.1 p.2] | p <- zip (rows lhs) (rows rhs)]),
   self).
Proof.
move=> e0 e1.
rewrite /UserAttentiveEuclidean.similarity_score /bind /lift /ret /=.
by rewrite /euclidean_sq_distance e0 e1 !eqxx /= /tf_neg /= -map_comp.
Qed.

(** C3. UserAttentiveEuclidean.similarity_score with all_items on lhs of
    shape B1 x d and rhs of shape B1 x B2 x d returns a B1 x B2 tensor
    whose entry (i, j) is the negated squared Euclidean distance between
    lhs[i] and rhs[i][j], which is what the path without all_items
    returns at row i for lhs and item j of every block of rhs. *)
Theorem UserAttentive_all_items_agrees lhs (rhs : tensor3 R) self :
  wf2 lhs -> wf3 rhs -> dim0 lhs = dim3_0 rhs -> dim1 lhs = dim3_2 rhs ->
  exists score,
    [/\ UserAttentiveEuclidean.similarity_score lhs (Rank3 rhs) true self
        = (Ok score, self),
        dim0 score = dim0 lhs, dim1 score = dim3_1 rhs
      & forall i j, (i < dim0 lhs)%N -> (j < dim3_1 rhs)%N ->
          entry 0 score i j
          = - \sum_(k < dim1 lhs)
                (entry 0 lhs i k - entry3 0 rhs i j k) ^+ 2
          /\ exists2 col,
               UserAttentiveEuclidean.similarity_score
                 lhs (Rank2 (item_slice rhs j)) false self = (Ok col, self)
               & row col i = [:: entry 0 score i j]].
Proof.
move=> wf_l wf_r e0 e2; have szL := wf2_size wf_l; have szR := wf3_size wf_r.
exists (tf_neg (Tensor2 (dim3_0 rhs) (dim3_1 rhs)
  [seq [seq sq_dist p.1 v | v <- p.2] | p <- zip (rows lhs) (blocks rhs)])).
split=> // [|i j lt_i lt_j].
  rewrite /UserAttentiveEuclidean.similarity_score /bind /lift /ret /=.
  by rewrite /euclidean_sq_distance_batched_all_pairs e0 e2 !eqxx.
rewrite e0 in lt_i.
have lt_iL : (i < size (rows lhs))%N by rewrite szL e0.
have lt_iR : (i < size (blocks rhs))%N by rewrite szR.
have szij := wf3_row wf_r lt_i lt_j.
have entryE : entry 0 (tf_neg (Tensor2 (dim3_0 rhs) (dim3_1 rhs)
      [seq [seq sq_dist p.1 v | v <- p.2] | p <- zip (rows lhs) (blocks rhs)]))
    i j = - sq_dist (row lhs i) (nth [::] (nth [::] (blocks rhs) i) j).
  have lt_z : (i < size (zip (rows lhs) (blocks rhs)))%N.
    by rewrite size_zip szL szR e0 minnn.
  rewrite /entry /row /= -map_comp (nth_map ([::], [::]) _ _ lt_z).
  rewrite nth_zip ?szL ?szR //= -map_comp.
  by rewrite (nth_map [::]) // (wf3_block wf_r lt_i).
have szi : size (row lhs i) = dim3_2 rhs.
  by rewrite -e2; apply: wf2_row; rewrite // e0.
rewrite entryE; split; first by rewrite (sq_distE szi szij) e2.
rewrite user_attentive_false_run //; eexists; first by [].
rewrite /row /= (nth_zip_rows (fun a b => - sq_dist a b)) ?size_map ?szL ?szR
  ?e0 //.
by rewrite (nth_map [::]).
Qed.

End AllItems.

Section DotProductScore.

Variable R : realDomainType.
Implicit Types (self : model R) (x y z w lhs rhs : tensor2 R).
Implicit Types (u v : seq R).

(* Column j of the transpose is row j. *)
Lemma column_transpose x (j : nat) :
  wf2 x -> (j < dim0 x)%N -> column (tf_transpose x) j = row x j.
Proof.
move=> wf_x lt_j; have szx := wf2_size wf_x.
rewrite /column /tf_transpose /= -map_comp -[RHS](mkseq_nth 0).
rewrite (wf2_row wf_x lt_j); apply: mkseq_ext => k _ /=.
by rewrite /column (nth_map [::]) ?szx.
Qed.

Lemma sum_seq_mkseq_mul (d : nat) u v :
  size u = d -> size v = d ->
  sum_seq (mkseq (fun k => nth 0 u k * nth 0 v k) d) = dot u v.
Proof. by move=> su sv; rewrite (mkseq_zip _ su sv). Qed.

(** C8. SimpleFactor.similarity_score with all_items, the matrix product
    of lhs with the transpose of rhs, has at (i, j) the value that the
    path without all_items computes for row i of lhs and row j of rhs:
    the sum of the products of their entries. *)
Theorem SimpleFactor_all_items_agrees lhs rhs self :
  wf2 lhs -> wf2 rhs -> dim1 lhs = dim1 rhs ->
  exists score,
    [/\ SimpleFactor.similarity_score lhs rhs true self = (Ok score, self),
        dim0 score = dim0 lhs, dim1 score = dim0 rhs
      & forall i j, (i < dim0 lhs)%N -> (j < dim0 rhs)%N ->
          SimpleFactor.similarity_score
            (row_tensor lhs i) (row_tensor rhs j) false self
          = (Ok (Tensor2 1 1 [:: [:: entry 0 score i j]]), self)
          /\ entry 0 score i j
             = \sum_(k < dim1 lhs) entry 0 lhs i k * entry 0 rhs j k].
Proof.
move=> wf_l wf_r e1; have szL := wf2_size wf_l.
exists (Tensor2 (dim0 lhs) (dim0 rhs)
  [seq mkseq (fun j => dot r (column (tf_transpose rhs) j)) (dim0 rhs)
  | r <- rows lhs]).
split=> // [|i j lt_i lt_j].
  by rewrite /SimpleFactor.similarity_score /lift /tf_matmul /= e1 eqxx.
have szi := wf2_row wf_l lt_i.
have szj : size (row rhs j) = dim1 lhs by rewrite e1; apply: wf2_row.
have -> : entry 0 (Tensor2 (dim0 lhs) (dim0 rhs)
    [seq mkseq (fun j => dot r (column (tf_transpose rhs) j)) (dim0 rhs)
    | r <- rows lhs]) i j = dot (row lhs i) (row rhs j).
  rewrite /entry {1}/row /= (nth_map [::]) ?szL // nth_mkseq //.
  by rewrite column_transpose.
split; last by rewrite (dotE szi szj).
rewrite /SimpleFactor.similarity_score /bind /lift /ret /tf_multiply.
rewrite elementwise_same //= /tf_reduce_sum /= /entry /row /=.
by rewrite (sum_seq_mkseq_mul szi szj).
Qed.

End DotProductScore.

Section DistanceScore.

Variable R : realDomainType.
Implicit Types (self : model R) (x y z w lhs rhs : tensor2 R).
Implicit Types (u v : seq R).




Lemma zip_map_swap (A B : Type) (g h : A -> A -> B) (s t : seq A) :
  (forall a b, g a b = h b a) ->
  [seq g p.1 p.2 | p <- zip s t] = [seq h p.1 p.2 | p <- zip t s].
Proof. by move=> gh; elim: s t => [|a s IH] [|b t] //=; rewrite gh IH. Qed.

Lemma sq_dist_sym u v : sq_dist u v = sq_dist v u.
Proof.
pose g (a b : R) := (a - b) ^+ 2.
rewrite /sq_dist; congr sum_seq; apply: (zip_map_swap (g := g) (h := g)).
by move=> a b; rewrite /g -opprB sqrrN.
Qed.

Lemma bshape_sym (m n : nat) : bshape m n = bshape n m.
Proof.
rewrite /bshape [n == m]eq_sym; case: (eqVneq m n) => [-> //|ne_mn].
case: (eqVneq m 1%N) => [m1|_]; case: (eqVneq n 1%N) => [n1|_] //.
by rewrite m1 n1 eqxx in ne_mn.
Qed.

Lemma elementwise_comm (f : R -> R -> R) x y :
  commutative f -> elementwise f x y = elementwise f y x.
Proof.
move=> fC; rewrite /elementwise (bshape_sym (dim0 y)) (bshape_sym (dim1 y)).
case: bshape => // r; case: bshape => // c.
congr (Ok (Tensor2 _ _ _)); apply: mkseq_ext => i _.
by apply: mkseq_ext => j _.
Qed.

(** C10. Without all_items, CFEuclideanBase.similarity_score and
    SimpleFactor.similarity_score are symmetric in lhs and rhs. *)
Theorem similarity_score_symmetric lhs rhs self :
  CFEuclideanBase.similarity_score lhs rhs false self
  = CFEuclideanBase.similarity_score rhs lhs false self
  /\ SimpleFactor.similarity_score lhs rhs false self
     = SimpleFactor.similarity_score rhs lhs false self.
Proof.
split; last first.
  rewrite /SimpleFactor.similarity_score /bind /lift /tf_multiply.
  by rewrite (elementwise_comm _ _ (@mulrC R)).
rewrite /CFEuclideanBase.similarity_score /bind /lift /euclidean_sq_distance.
rewrite [dim0 rhs == _]eq_sym [dim1 rhs == _]eq_sym.
case: (eqVneq (dim0 lhs)) => [e0|] //=; case: eqP => [e1|] //=.
pose g (a b : seq R) := [:: sq_dist a b].
rewrite e0 (zip_map_swap (g := g) (h := g)) // => a b.
by rewrite /g sq_dist_sym.
Qed.

End DistanceScore.


(* ------------------------------------------------------------------ *)
(* The methods only read self                                          *)
(* ------------------------------------------------------------------ *)

Section Frame.

Variable R : realDomainType.
Implicit Types (self : model R) (x y z w lhs rhs : tensor2 R).
Implicit Types (input : tensor2 int).

Lemma pure_ret (A : Type) (a : A) : pure_read (ret (R := R) a).
Proof. by []. Qed.

Lemma pure_lift (A : Type) (r : result A) : pure_read (lift (R := R) r).
Proof. by []. Qed.

Lemma pure_call_layer (w : model R -> tensor2 R) (ids : seq int) :
  pure_read (call_layer w ids).
Proof. by []. Qed.

Lemma pure_bind (A B : Type) (c : M R A) (k : A -> M R B) :
  pure_read c -> (forall a, pure_read (k a)) -> pure_read (bind c k).
Proof.
move=> pc pk self; rewrite /bind; have:= pc self.
by case: (c self) => [[a|e] s'] /= ->; first exact: pk.
Qed.

Ltac pure_steps :=
  repeat match goal with
  | |- pure_read (bind _ _) => apply pure_bind; [|intro]
  | |- pure_read (ret _) => exact: pure_ret
  | |- pure_read (lift _) => exact: pure_lift
  | |- pure_read (call_layer _ _) => exact: pure_call_layer
  end.

Lemma pure_get_rhs input : pure_read (CFEuclideanBase.get_rhs (R := R) input).
Proof. by rewrite /CFEuclideanBase.get_rhs; pure_steps. Qed.

Lemma pure_similarity_score lhs rhs (all_items : bool) :
  pure_read (CFEuclideanBase.similarity_score lhs rhs all_items).
Proof. by rewrite /CFEuclideanBase.similarity_score; pure_steps. Qed.

(* RotRefEuclidean.get_lhs only reads self as soon as get_heads does. *)
Lemma pure_RotRef_get_lhs (get_heads : tensor2 int -> M R (tensor2 R)) input :
  (forall t, pure_read (get_heads t)) ->
  pure_read (RotRefEuclidean.get_lhs get_heads input).
Proof.
move=> pure_heads; rewrite /RotRefEuclidean.get_lhs.
by apply pure_bind; [exact: pure_heads | intro; pure_steps].
Qed.

(* Every call of a method of the file hands self back as it got it. *)
Lemma pure_invoke (c : invocation R) : pure_read (invoke c).
Proof.
case: c => [cls input|cls input|cls lhs rhs all_items|lhs rhs all_items].
- by case: cls; rewrite /invoke /get_lhs_of /SimpleFactor.get_lhs
    /TransE.get_lhs /MuREuclidean.get_lhs; pure_steps.
- case: cls; rewrite /invoke /get_rhs_of /SimpleFactor.get_rhs
    /TransE.get_rhs; try exact: pure_get_rhs.
  by rewrite /MuREuclidean.get_rhs; pure_steps.
- case: cls; rewrite /invoke /similarity_score_of /TransE.similarity_score
    /MuREuclidean.similarity_score; try exact: pure_similarity_score.
  by rewrite /SimpleFactor.similarity_score; case: all_items; pure_steps.
- rewrite /invoke /UserAttentiveEuclidean.similarity_score.
  by case: all_items; pure_steps.
Qed.

End Frame.

(* ------------------------------------------------------------------ *)
(* Shapes of get_lhs and get_rhs                                       *)
(* ------------------------------------------------------------------ *)

Section Shapes.

Variable R : realDomainType.
Implicit Types (self : model R) (x y z w lhs rhs : tensor2 R).
Implicit Types (input : tensor2 int) (cls : model_class).

Lemma wf2_pointwise (op : R -> R -> R) (wa wb : tensor2 R) input
    (a b d : nat) :
  wf2 (pointwise op wa wb input a b d).
Proof.
rewrite /wf2 /= size_mkseq eqxx /=; apply/allP => r /mapP[i _ ->].
by rewrite size_mkseq.
Qed.

Lemma row_pointwise (op : R -> R -> R) (wa wb : tensor2 R) input
    (a b d i : nat) :
  (i < size (rows input))%N ->
  row (pointwise op wa wb input a b d) i
  = mkseq (fun j => op (nth 0 (vec_at wa input i a) j)
                       (nth 0 (vec_at wb input i b) j)) d.
Proof. by move=> lt_i; rewrite /row /= nth_mkseq. Qed.

(* get_lhs of the three classes and MuREuclidean.get_rhs, on a batch
   with at least two columns and ids within bounds, over tables of one
   embedding dimension. *)
Lemma get_lhs_of_run cls self input :
  wf_of cls self -> (1 < dim1 input)%N ->
  ids_in (dim0 (entities self)) input 0 ->
  ids_in (dim0 (relations self)) input 1 ->
  get_lhs_of cls input self =
  (Ok match cls with
      | SimpleFactorC =>
          pointwise *%R (entities self) (relations self) input 0 1 (dims self)
      | TransEC =>
          pointwise +%R (entities self) (relations self) input 0 1 (dims self)
      | MuREuclideanC =>
          pointwise *%R (transforms self) (entities self) input 1 0 (dims self)
      end, self).
Proof.
move=> wf_self lt1 ih ir.
have lt0 : (0 < dim1 input)%N by apply: ltn_trans lt1.
have p0 := py_index_nat lt0.
case: cls wf_self => /=.
- case/andP=> /andP[_ /eqP dE] /andP[_ /eqP dR].
  rewrite /SimpleFactor.get_lhs (@two_lookups_run R (@entities R)
    (@relations R) 0 0%N (@tf_multiply R) self input p0 lt1 ih ir).
  by rewrite /tf_multiply (elementwise_lookup _ _ _ _ dE dR).
- case/andP=> /andP[_ /eqP dE] /andP[_ /eqP dR].
  rewrite /TransE.get_lhs (@two_lookups_run R (@entities R)
    (@relations R) 0 0%N (@tf_add R) self input p0 lt1 ih ir).
  by rewrite /tf_add (elementwise_lookup _ _ _ _ dE dR).
- case/mur_unpack=> /andP[_ /eqP dE] _ /andP[_ /eqP dT] nT.
  rewrite -nT in ir.
  rewrite /MuREuclidean.get_lhs (@two_lookups_run R (@entities R)
    (@transforms R) 0 0%N (fun a b => tf_multiply b a) self input p0 lt1
    ih ir).
  by rewrite /tf_multiply (elementwise_lookup _ _ _ _ dT dE).
Qed.

Lemma MuREuclidean_get_rhs_run self input :
  wf_model self -> (1 < dim1 input)%N ->
  ids_in (dim0 (entities self)) input (dim1 input).-1 ->
  ids_in (dim0 (relations self)) input 1 ->
  MuREuclidean.get_rhs input self =
  (Ok (pointwise +%R (entities self) (relations self) input
         (dim1 input).-1 1 (dims self)), self).
Proof.
case/andP=> /andP[_ /eqP dE] /andP[_ /eqP dR] lt1 it ir.
have lt0 : (0 < dim1 input)%N by apply: ltn_trans lt1.
rewrite /MuREuclidean.get_rhs (@two_lookups_run R (@entities R)
  (@relations R) (-1) (dim1 input).-1 (@tf_add R) self input
  (py_index_last lt0) lt1 it ir).
by rewrite /tf_add (elementwise_lookup _ _ _ _ dE dR).
Qed.

Lemma wf_of_model cls self : wf_of cls self -> wf_model self.
Proof. by case: cls => //= /and3P[]. Qed.

(** C6. For a batch whose entity and relation ids are within table
    bounds, get_lhs and get_rhs of every model return one vector per row
    of the batch, each of the embedding dimension of the model; so the
    last dimensions of the lhs and rhs handed to similarity_score match. *)
Theorem lhs_rhs_have_embedding_dimension cls self input :
  wf_of cls self -> triples_in_bounds self input ->
  exists lhs rhs,
    [/\ get_lhs_of cls input self = (Ok lhs, self),
        get_rhs_of cls input self = (Ok rhs, self),
        [/\ wf2 lhs, dim0 lhs = dim0 input & dim1 lhs = dims self],
        [/\ wf2 rhs, dim0 rhs = dim0 input & dim1 rhs = dims self]
      & dim1 lhs = dim1 rhs].
Proof.
move=> wf_self /triples_unpack[wf_in d3 ih ir it].
have szB := wf2_size wf_in; have wf_m := wf_of_model wf_self.
have /andP[wfE _] := wf_m; have /andP[_ /eqP dE] := wfE.
rewrite get_lhs_of_run ?d3 //.
have [wfT dT] := wf2_lookup (k := 2) wfE it.
have rhsE : get_rhs_of cls input self
    = (Ok (if cls is MuREuclideanC
           then pointwise +%R (entities self) (relations self) input 2 1
                  (dims self)
           else lookup (entities self) input 2), self).
  case: (cls) => /=.
  + by rewrite /SimpleFactor.get_rhs get_rhs_run ?d3.
  + by rewrite /TransE.get_rhs get_rhs_run ?d3.
  + by rewrite MuREuclidean_get_rhs_run ?d3.
rewrite rhsE; do 2!eexists; split; [by [] | by [] | | | ].
- by case: (cls); split; rewrite ?wf2_pointwise //= szB.
- by case: (cls); split; rewrite ?wf2_pointwise //= ?szB.
- by case: (cls).
Qed.

(* RotRefEuclidean.get_lhs keeps the shape that get_heads returns. *)
Lemma RotRef_get_lhs_dims (get_heads : tensor2 int -> M R (tensor2 R))
    self input (heads : tensor2 R) :
  wf_model self -> wf2 input -> (1 < dim1 input)%N ->
  ids_in (dim0 (relations self)) input 1 ->
  get_heads input self = (Ok heads, self) ->
  dim0 heads = dim0 input -> dim1 heads = dims self ->
  exists lhs,
    [/\ RotRefEuclidean.get_lhs get_heads input self = (Ok lhs, self),
        wf2 lhs, dim0 lhs = dim0 input & dim1 lhs = dims self].
Proof.
case/andP=> _ /andP[_ /eqP dR] wf_in lt1 ir headsE h0 h1.
have szB := wf2_size wf_in.
rewrite /RotRefEuclidean.get_lhs /bind headsE /lift /call_layer.
rewrite (slice_colE (py_index_nat lt1)) embedding_col //.
rewrite /tf_add elementwise_same /= ?szB ?dR //.
eexists; split=> //; rewrite /wf2 /= size_mkseq eqxx /=.
by apply/allP => r /mapP[i _ ->]; rewrite size_mkseq.
Qed.

End Shapes.

(* ------------------------------------------------------------------ *)
(* get_rhs and the last column                                         *)
(* ------------------------------------------------------------------ *)

Section LastColumn.

Variable R : realDomainType.
Implicit Types (self : model R) (x y z w lhs rhs : tensor2 R).
Implicit Types (input : tensor2 int) (cls : model_class).

Lemma entry_last input (i : nat) :
  wf2 input -> (i < dim0 input)%N ->
  entry 0 input i (dim1 input).-1 = last 0 (row input i).
Proof. by move=> wf_in lt_i; rewrite /entry -(wf2_row wf_in lt_i) nth_last. Qed.

(** C4 (amended). For SimpleFactor and TransE, which use
    CFEuclideanBase.get_rhs as it is, get_rhs returns at every row the
    entity embedding stored at the id in the last column of that row,
    whatever the number of columns (at least one); MuREuclidean overrides
    get_rhs and returns that embedding plus the relation embedding of the
    id in column 1. *)
Theorem get_rhs_reads_last_column cls self input :
  wf_model self -> wf2 input ->
  (if cls is MuREuclideanC
   then (1 < dim1 input)%N && ids_in (dim0 (relations self)) input 1
   else (0 < dim1 input)%N) ->
  ids_in (dim0 (entities self)) input (dim1 input).-1 ->
  exists rhs,
    [/\ get_rhs_of cls input self = (Ok rhs, self),
        dim0 rhs = dim0 input, dim1 rhs = dims self
      & forall i, (i < dim0 input)%N ->
          let tail := row (entities self) (absz (last 0 (row input i))) in
          row rhs i = if cls is MuREuclideanC
                      then vadd tail (vec_at (relations self) input i 1)
                      else tail].
Proof.
move=> wf_m wf_in cols it; have szB := wf2_size wf_in.
have [/andP[wfE wfR] /andP[/andP[_ /eqP dE] _]] := (wf_m, wf_m).
have tailE i : (i < dim0 input)%N ->
    vec_at (entities self) input i (dim1 input).-1
    = row (entities self) (absz (last 0 (row input i))).
  by move=> lt_i; rewrite /vec_at entry_last.
case: cls cols => [pos|pos|/andP[lt1 ir]] /=.
- rewrite /SimpleFactor.get_rhs get_rhs_run //; eexists; split=> //= i lt_i.
  by rewrite row_lookup ?szB // tailE.
- rewrite /TransE.get_rhs get_rhs_run //; eexists; split=> //= i lt_i.
  by rewrite row_lookup ?szB // tailE.
- rewrite MuREuclidean_get_rhs_run //; eexists; split=> //= i lt_i.
  rewrite row_pointwise ?szB // -tailE //.
  by rewrite mkseq_zip // (@size_vec_at _ _ _ _ _ (dims self) _ _ wf_in lt_i).
Qed.

End LastColumn.

(** C4 (as stated, refuted). On the demo model, MuREuclidean.get_rhs of
    the batch [(0, 1, 2); (2, 0, 1)] is not the entity embedding looked up
    at the last column: it returns [30; 47] and [13; 16], the tail
    embeddings [0; 7] and [3; -4] plus the relation embeddings. *)
Lemma get_rhs_MuREuclidean_counterexample :
  [/\ wf_of MuREuclideanC demo_model,
      triples_in_bounds demo_model demo_batch,
      lookup (entities demo_model) demo_batch 2
      = Tensor2 2 2 [:: [:: 0; 7]; [:: 3; -4]],
      get_rhs_of MuREuclideanC demo_batch demo_model
      = (Ok (Tensor2 2 2 [:: [:: 30; 47]; [:: 13; 16]]), demo_model)
    & (get_rhs_of MuREuclideanC demo_batch demo_model).1
      <> Ok (lookup (entities demo_model) demo_batch 2)].
Proof. by split. Qed.

(* ------------------------------------------------------------------ *)
(* When a call raises                                                  *)
(* ------------------------------------------------------------------ *)

Section Errors.

Variable R : realDomainType.
Implicit Types (self : model R) (x y z w lhs rhs : tensor2 R).
Implicit Types (input : tensor2 int) (cls : model_class).

Lemma bshapeP (m n : nat) : isSome (bshape m n) = broadcastable m n.
Proof. by rewrite /bshape /broadcastable; do 3!case: eqP => //. Qed.

Lemma all_ids (n : nat) input (k : nat) :
  all (in_table n) [seq nth 0 r k | r <- rows input] = ids_in n input k.
Proof. by rewrite all_map. Qed.

(* The outcome of an elementwise operation depends on the shapes only. *)
Lemma elementwise_outcome (f : R -> R -> R) x y :
  [/\ is_ok (elementwise f x y)
      = broadcastable (dim0 x) (dim0 y) && broadcastable (dim1 x) (dim1 y),
      raises OutOfRange (elementwise f x y) = false
    & raises ShapeMismatch (elementwise f x y)
      = ~~ is_ok (elementwise f x y)].
Proof.
rewrite /elementwise -!bshapeP.
by case: (bshape (dim0 x)) => [r|]; case: (bshape (dim1 x)) => [c|].
Qed.

(* The outcome of the two lookups followed by an elementwise operation. *)
Lemma two_lookups_outcome (wa wb : model R -> tensor2 R) (c : int)
    (op : R -> R -> R) (flip : bool) self input :
  let a := (if c is Posz k then k else (dim1 input).-1) in
  let out :=
    (bind (lift (slice_col input c)) (fun a_ids =>
       bind (call_layer wa a_ids) (fun xa =>
         bind (lift (slice_col input 1)) (fun b_ids =>
           bind (call_layer wb b_ids) (fun xb =>
             lift (if flip then elementwise op xb xa
                   else elementwise op xa xb))))) self).1 in
  let shapes :=
    (1 < dim1 input)%N && broadcastable (dim1 (wa self)) (dim1 (wb self)) in
  let ids :=
    ids_in (dim0 (wa self)) input a && ids_in (dim0 (wb self)) input 1 in
  (c = 0 \/ c = -1) ->
  [/\ is_ok out = shapes && ids,
      raises OutOfRange out ==> ~~ ids
    & raises ShapeMismatch out ==> ~~ shapes].
Proof.
move=> a out shapes ids c01.
rewrite /out /shapes /ids /a /bind /lift /call_layer /slice_col /embedding.
move=> {out shapes ids a}.
have bC m n : broadcastable m n = broadcastable n m.
  by rewrite /broadcastable [n == m]eq_sym [(n == 1%N) || _]orbC.
have bnn m : broadcastable m m by rewrite /broadcastable eqxx.
case: c01 => ->; case: (dim1 input) => [|[|n]] //=;
  rewrite ?subn1 /= ?all_ids; case: (ids_in _ _ _) => //=;
  rewrite ?all_ids; try (case: (ids_in _ _ _) => //=);
  rewrite ?andbF ?andbT //; case: flip;
  match goal with
  | |- context [elementwise ?f ?u ?v] =>
      have [-> -> ->] := elementwise_outcome f u v
  end; rewrite /= !size_map bnn /= 1?bC; by case: (broadcastable _ _).
Qed.

Lemma broadcastableC (m n : nat) : broadcastable m n = broadcastable n m.
Proof. by rewrite /broadcastable [n == m]eq_sym [(n == 1%N) || _]orbC. Qed.

Lemma get_rhs_outcome self input :
  let out := (CFEuclideanBase.get_rhs input self).1 in
  let ids := ids_in (dim0 (entities self)) input (dim1 input).-1 in
  [/\ is_ok out = (0 < dim1 input)%N && ids,
      raises OutOfRange out ==> ~~ ids
    & raises ShapeMismatch out ==> ~~ (0 < dim1 input)%N].
Proof.
rewrite /CFEuclideanBase.get_rhs /bind /lift /call_layer /slice_col.
rewrite /embedding.
case: (dim1 input) => [|n] //=; rewrite subn1 /= all_ids.
by case: (ids_in _ _ _).
Qed.

Lemma distance_score_outcome lhs rhs (all_items : bool) self :
  let out := (CFEuclideanBase.similarity_score lhs rhs all_items self).1 in
  let shapes :=
    if all_items then dim1 lhs == dim1 rhs
    else (dim0 lhs == dim0 rhs) && (dim1 lhs == dim1 rhs) in
  [/\ is_ok out = shapes, raises OutOfRange out = false
    & raises ShapeMismatch out = ~~ shapes].
Proof.
rewrite /CFEuclideanBase.similarity_score /bind /lift /ret.
rewrite /euclidean_sq_distance.
by case: all_items => /=; do ?case: (_ == _).
Qed.

(** C7. A call of get_lhs, get_rhs or similarity_score raises exactly
    when an id it looks up lies outside its table or the shapes of its
    operands do not fit; each error stems from its own cause, and with
    ids in bounds and fitting shapes the call returns. *)
Theorem raises_iff_bad_ids_or_shapes (c : invocation R) self :
  [/\ is_ok (invoke c self).1 = shapes_ok c self && ids_ok c self,
      raises OutOfRange (invoke c self).1 ==> ~~ ids_ok c self
    & raises ShapeMismatch (invoke c self).1 ==> ~~ shapes_ok c self].
Proof.
case: c => [cls input|cls input|cls lhs rhs all_items|lhs rhs all_items].
- case: cls => /=.
  + exact: (@two_lookups_outcome (@entities R) (@relations R) 0 *%R false
             self input (or_introl erefl)).
  + exact: (@two_lookups_outcome (@entities R) (@relations R) 0 +%R false
             self input (or_introl erefl)).
  + rewrite broadcastableC.
    exact: (@two_lookups_outcome (@entities R) (@transforms R) 0 *%R true
             self input (or_introl erefl)).
- case: cls => /=; try exact: get_rhs_outcome.
  exact: (@two_lookups_outcome (@entities R) (@relations R) (-1) +%R false
           self input (or_intror erefl)).
- have [ok_d oor_d sm_d] := distance_score_outcome lhs rhs all_items self.
  case: cls => /=; rewrite ?andbT.
  + rewrite /SimpleFactor.similarity_score /bind /lift /ret {ok_d oor_d sm_d}.
    case: all_items => /=; first by rewrite /tf_matmul /=; case: (_ == _).
    have [] := elementwise_outcome *%R lhs rhs; rewrite /tf_multiply.
    by case: (elementwise _ _ _) => [p|[]] /= <- // _ _; split.
  + by rewrite /TransE.similarity_score ok_d oor_d sm_d !implybb.
  + by rewrite /MuREuclidean.similarity_score ok_d oor_d sm_d !implybb.
- rewrite /= /UserAttentiveEuclidean.similarity_score /bind /lift /ret.
  rewrite /euclidean_sq_distance_batched_all_pairs /euclidean_sq_distance.
  by case: all_items; case: rhs => rhs /=; rewrite ?andbT;
    do ?case: (_ == _).
Qed.

End Errors.

(* ------------------------------------------------------------------ *)
(* The statements at the demo model                                    *)
(* ------------------------------------------------------------------ *)

Lemma TransE_score_neg_sq_distance_witness :
  wf_model demo_model /\ triples_in_bounds demo_model demo_batch /\
  exists score,
    [/\ score_batch TransE.get_lhs TransE.get_rhs TransE.similarity_score
          demo_batch false demo_model = (Ok score, demo_model),
        dim0 score = dim0 demo_batch, dim1 score = 1%N
      & forall i, (i < dim0 demo_batch)%N ->
          row score i =
          [:: - \sum_(k < dims demo_model)
                 (nth 0 (vec_at (entities demo_model) demo_batch i 0) k
                  + nth 0 (vec_at (relations demo_model) demo_batch i 1) k
                  - nth 0 (vec_at (entities demo_model) demo_batch i 2) k)
                 ^+ 2]].
Proof.
split; [reflexivity | split; [reflexivity | ]].
apply: TransE_score_neg_sq_distance; reflexivity.
Defined.

Lemma MuREuclidean_lhs_rhs_score_witness :
  wf_mur demo_model /\ triples_in_bounds demo_model demo_batch /\
  exists lhs rhs score,
    [/\ MuREuclidean.get_lhs demo_batch demo_model = (Ok lhs, demo_model),
        MuREuclidean.get_rhs demo_batch demo_model = (Ok rhs, demo_model),
        score_batch MuREuclidean.get_lhs MuREuclidean.get_rhs
          MuREuclidean.similarity_score demo_batch false demo_model
        = (Ok score, demo_model)
      & forall i, (i < dim0 demo_batch)%N ->
          [/\ row lhs i = vmul (vec_at (transforms demo_model) demo_batch i 1)
                               (vec_at (entities demo_model) demo_batch i 0),
              row rhs i = vadd (vec_at (entities demo_model) demo_batch i 2)
                               (vec_at (relations demo_model) demo_batch i 1)
            & row score i =
              [:: - \sum_(k < dims demo_model)
                     (nth 0 (vec_at (transforms demo_model) demo_batch i 1) k
                      * nth 0 (vec_at (entities demo_model) demo_batch i 0) k
                      - (nth 0 (vec_at (entities demo_model) demo_batch i 2) k
                         + nth 0
                             (vec_at (relations demo_model) demo_batch i 1) k))
                     ^+ 2]]].
Proof.
split; [reflexivity | split; [reflexivity | ]].
apply: MuREuclidean_lhs_rhs_score; reflexivity.
Defined.

Lemma UserAttentive_all_items_agrees_witness :
  [/\ wf2 demo_lhs, wf3 demo_items, dim0 demo_lhs = dim3_0 demo_items
    & dim1 demo_lhs = dim3_2 demo_items] /\
  exists score,
    [/\ UserAttentiveEuclidean.similarity_score
          demo_lhs (Rank3 demo_items) true demo_model
        = (Ok score, demo_model),
        dim0 score = dim0 demo_lhs, dim1 score = dim3_1 demo_items
      & forall i j, (i < dim0 demo_lhs)%N -> (j < dim3_1 demo_items)%N ->
          entry 0 score i j
          = - \sum_(k < dim1 demo_lhs)
                (entry 0 demo_lhs i k - entry3 0 demo_items i j k) ^+ 2
          /\ exists2 col,
               UserAttentiveEuclidean.similarity_score
                 demo_lhs (Rank2 (item_slice demo_items j)) false demo_model
               = (Ok col, demo_model)
               & row col i = [:: entry 0 score i j]].
Proof.
split; first by split; reflexivity.
apply: UserAttentive_all_items_agrees; reflexivity.
Defined.

Lemma get_rhs_reads_last_column_witness :
  [/\ wf_model demo_model, wf2 demo_wide_batch, (0 < dim1 demo_wide_batch)%N
    & ids_in (dim0 (entities demo_model)) demo_wide_batch
        (dim1 demo_wide_batch).-1] /\
  exists rhs,
    [/\ get_rhs_of TransEC demo_wide_batch demo_model = (Ok rhs, demo_model),
        dim0 rhs = dim0 demo_wide_batch, dim1 rhs = dims demo_model
      & forall i, (i < dim0 demo_wide_batch)%N ->
          row rhs i
          = row (entities demo_model)
              (absz (last 0 (row demo_wide_batch i)))].
Proof.
split; first by split; reflexivity.
apply: (@get_rhs_reads_last_column _ TransEC); reflexivity.
Defined.

Lemma lhs_rhs_have_embedding_dimension_witness :
  wf_of MuREuclideanC demo_model /\ triples_in_bounds demo_model demo_batch /\
  exists lhs rhs,
    [/\ get_lhs_of MuREuclideanC demo_batch demo_model = (Ok lhs, demo_model),
        get_rhs_of MuREuclideanC demo_batch demo_model = (Ok rhs, demo_model),
        [/\ wf2 lhs, dim0 lhs = dim0 demo_batch & dim1 lhs = dims demo_model],
        [/\ wf2 rhs, dim0 rhs = dim0 demo_batch & dim1 rhs = dims demo_model]
      & dim1 lhs = dim1 rhs].
Proof.
split; [reflexivity | split; [reflexivity | ]].
apply: lhs_rhs_have_embedding_dimension; reflexivity.
Defined.

Lemma SimpleFactor_all_items_agrees_witness :
  [/\ wf2 demo_lhs, wf2 demo_rhs & dim1 demo_lhs = dim1 demo_rhs] /\
  exists score,
    [/\ SimpleFactor.similarity_score demo_lhs demo_rhs true demo_model
        = (Ok score, demo_model),
        dim0 score = dim0 demo_lhs, dim1 score = dim0 demo_rhs
      & forall i j, (i < dim0 demo_lhs)%N -> (j < dim0 demo_rhs)%N ->
          SimpleFactor.similarity_score
            (row_tensor demo_lhs i) (row_tensor demo_rhs j) false demo_model
          = (Ok (Tensor2 1 1 [:: [:: entry 0 score i j]]), demo_model)
          /\ entry 0 score i j
             = \sum_(k < dim1 demo_lhs)
                 entry 0 demo_lhs i k * entry 0 demo_rhs j k].
Proof.
split; first by split; reflexivity.
apply: SimpleFactor_all_items_agrees; reflexivity.
Defined.


(* ------------------------------------------------------------------ *)
(* Further properties of the methods                                   *)
(* ------------------------------------------------------------------ *)

Section LhsContents.

Variable R : realDomainType.
Implicit Types (self : model R) (x y z w lhs rhs : tensor2 R).
Implicit Types (input : tensor2 int) (cls : model_class) (u v : seq R).

Lemma sum_seq_mkseq (f : nat -> R) (n : nat) :
  sum_seq (mkseq f n) = \sum_(k < n) f k.
Proof.
by rewrite sum_seqE /mkseq big_map -{1}[n]subn0 -/(index_iota 0 n) big_mkord.
Qed.

Lemma wf_of_transform_ids cls self input :
  wf_of cls self -> ids_in (dim0 (relations self)) input 1 ->
  ids_in (dim0 (if cls is MuREuclideanC then transforms self
                else relations self)) input 1.
Proof. by case: cls => //= /mur_unpack[_ _ _ ->]. Qed.

(** X1. On a batch with at least two columns and ids in bounds, get_lhs
    combines, row by row, the head embedding of column 0 with the vector
    of the relation of column 1: their product for SimpleFactor, their sum
    for TransE, transform times head for MuREuclidean. *)
Theorem get_lhs_combines_head_and_relation cls self input :
  wf_of cls self -> wf2 input -> (1 < dim1 input)%N ->
  ids_in (dim0 (entities self)) input 0 ->
  ids_in (dim0 (relations self)) input 1 ->
  exists lhs,
    [/\ get_lhs_of cls input self = (Ok lhs, self),
        dim0 lhs = dim0 input, dim1 lhs = dims self
      & forall i, (i < dim0 input)%N ->
          let head := vec_at (entities self) input i 0 in
          row lhs i =
          match cls with
          | SimpleFactorC => vmul head (vec_at (relations self) input i 1)
          | TransEC => vadd head (vec_at (relations self) input i 1)
          | MuREuclideanC => vmul (vec_at (transforms self) input i 1) head
          end].
Proof.
move=> wf_self wf_in lt1 ih ir; have szB := wf2_size wf_in.
have /andP[wfE wfR] := wf_of_model wf_self.
rewrite get_lhs_of_run //; eexists; split; first by [].
- by case: (cls); rewrite /= szB.
- by case: (cls).
move=> i lt_i /=.
have szE := size_vec_at wfE ih wf_in lt_i.
have szR := size_vec_at wfR ir wf_in lt_i.
case: cls wf_self => wf_self; rewrite row_pointwise ?szB ?mkseq_zip //.
have [_ _ wfT nT] := mur_unpack wf_self.
by apply: (size_vec_at wfT _ wf_in lt_i); rewrite nT.
Qed.

(** X2. The SimpleFactor score of a triple is the sum over the embedding
    coordinates of head * relation * tail. *)
Theorem SimpleFactor_score_trilinear self input :
  wf_model self -> triples_in_bounds self input ->
  exists score,
    [/\ score_batch SimpleFactor.get_lhs SimpleFactor.get_rhs
          SimpleFactor.similarity_score input false self = (Ok score, self),
        dim0 score = dim0 input, dim1 score = 1%N
      & forall i, (i < dim0 input)%N ->
          row score i =
          [:: \sum_(k < dims self)
                nth 0 (vec_at (entities self) input i 0) k
                * nth 0 (vec_at (relations self) input i 1) k
                * nth 0 (vec_at (entities self) input i 2) k]].
Proof.
move=> wf_m /triples_unpack[wf_in d3 ih ir it]; have szB := wf2_size wf_in.
have /andP[/andP[_ /eqP dE] _] := wf_m.
have lhsE := @get_lhs_of_run R SimpleFactorC self input wf_m.
rewrite /= d3 in lhsE.
rewrite /score_batch /bind lhsE // /SimpleFactor.get_rhs get_rhs_run ?d3 //.
rewrite /SimpleFactor.similarity_score /bind /lift /ret /tf_multiply.
rewrite elementwise_same /= ?dE //.
eexists; split=> //= i lt_i.
rewrite /row /= (nth_map [::]) ?size_mkseq ?szB // nth_mkseq ?szB //.
rewrite sum_seq_mkseq; congr [:: _]; apply: eq_bigr => k _.
by rewrite /entry /row /= nth_mkseq ?szB // nth_mkseq // (nth_map [::]) ?szB.
Qed.

End LhsContents.

Section DotProductPaths.

Variable R : realDomainType.
Implicit Types (self : model R) (x y z w lhs rhs : tensor2 R).
Implicit Types (u v : seq R).

Lemma dotC u v : dot u v = dot v u.
Proof.
pose g (a b : R) := a * b.
rewrite /dot; congr sum_seq; apply: (zip_map_swap (g := g) (h := g)).
by move=> a b; rewrite /g mulrC.
Qed.

(* The all_items score of SimpleFactor, as a tensor. *)
Lemma all_items_run lhs rhs self :
  dim1 lhs = dim1 rhs ->
  SimpleFactor.similarity_score lhs rhs true self =
  (Ok (Tensor2 (dim0 lhs) (dim0 rhs)
         [seq mkseq (fun j => dot r (column (tf_transpose rhs) j)) (dim0 rhs)
         | r <- rows lhs]), self).
Proof.
by move=> e1; rewrite /SimpleFactor.similarity_score /lift /tf_matmul /= e1 eqxx.
Qed.

Lemma all_items_row lhs rhs (i : nat) :
  wf2 lhs -> wf2 rhs -> (i < dim0 lhs)%N ->
  nth [::] [seq mkseq (fun j => dot r (column (tf_transpose rhs) j)) (dim0 rhs)
           | r <- rows lhs] i
  = mkseq (fun j => dot (row lhs i) (row rhs j)) (dim0 rhs).
Proof.
move=> wf_l wf_r lt_i; rewrite (nth_map [::]) ?(wf2_size wf_l) //.
by apply: mkseq_ext => j lt_j; rewrite column_transpose.
Qed.

(* The score without all_items on operands of one shape, as a tensor. *)
Lemma per_row_run lhs rhs self :
  dim0 lhs = dim0 rhs -> dim1 lhs = dim1 rhs ->
  SimpleFactor.similarity_score lhs rhs false self =
  (Ok (Tensor2 (dim0 lhs) 1
         [seq [:: sum_seq r]
         | r <- mkseq (fun i => mkseq (fun j =>
                  entry 0 lhs i j * entry 0 rhs i j) (dim1 lhs)) (dim0 lhs)]),
   self).
Proof.
move=> e0 e1.
rewrite /SimpleFactor.similarity_score /bind /lift /ret /tf_multiply.
by rewrite elementwise_same.
Qed.

(** X3. On lhs and rhs of one shape, the SimpleFactor score without
    all_items is the diagonal of the score with all_items. *)
Theorem SimpleFactor_per_row_is_diagonal lhs rhs self :
  wf2 lhs -> wf2 rhs -> dim0 lhs = dim0 rhs -> dim1 lhs = dim1 rhs ->
  exists all_scores row_scores,
    [/\ SimpleFactor.similarity_score lhs rhs true self
        = (Ok all_scores, self),
        SimpleFactor.similarity_score lhs rhs false self
        = (Ok row_scores, self)
      & forall i, (i < dim0 lhs)%N ->
          row row_scores i = [:: entry 0 all_scores i i]].
Proof.
move=> wf_l wf_r e0 e1; rewrite all_items_run // per_row_run //.
do 2!eexists; split=> // i lt_i.
have lt_j : (i < dim0 rhs)%N by rewrite -e0.
have szi := wf2_row wf_l lt_i.
have szj : size (row rhs i) = dim1 lhs by rewrite e1; apply: wf2_row.
rewrite /entry /row /= all_items_row // nth_mkseq //.
rewrite (nth_map [::]) ?size_mkseq // nth_mkseq //.
by rewrite -/(row lhs i) -/(row rhs i) -(sum_seq_mkseq_mul szi szj).
Qed.

(** X4. Swapping lhs and rhs transposes the SimpleFactor score with
    all_items. *)
Theorem SimpleFactor_all_items_swap lhs rhs self :
  wf2 lhs -> wf2 rhs -> dim1 lhs = dim1 rhs ->
  exists score,
    SimpleFactor.similarity_score lhs rhs true self = (Ok score, self)
    /\ SimpleFactor.similarity_score rhs lhs true self
       = (Ok (tf_transpose score), self).
Proof.
move=> wf_l wf_r e1; rewrite all_items_run // all_items_run //.
have szL := wf2_size wf_l; have szR := wf2_size wf_r.
eexists; split; first by [].
congr (Ok (Tensor2 _ _ _), _); rewrite /tf_transpose /=.
apply: (@eq_from_nth _ [::]); first by rewrite size_map size_mkseq.
move=> j; rewrite size_map szR => lt_j.
rewrite all_items_row // nth_mkseq // /column /=.
apply: (@eq_from_nth _ 0); first by rewrite size_mkseq !size_map.
move=> i; rewrite size_mkseq => lt_i; rewrite nth_mkseq //.
rewrite (nth_map [::]) ?size_map ?szL //.
by rewrite all_items_row // nth_mkseq // dotC.
Qed.

Lemma bshape_one (m : nat) : bshape m 1 = Some m.
Proof. by rewrite /bshape; case: eqP => // _; case: eqP. Qed.

(** X5. A single rhs row is broadcast: without all_items, the
    SimpleFactor score of a batch lhs against a 1 x d rhs scores every row
    of lhs against that one row. *)
Theorem SimpleFactor_broadcasts_single_row lhs rhs self :
  wf2 lhs -> wf2 rhs -> dim0 rhs = 1%N -> dim1 lhs = dim1 rhs ->
  exists score,
    [/\ SimpleFactor.similarity_score lhs rhs false self = (Ok score, self),
        dim0 score = dim0 lhs, dim1 score = 1%N
      & forall i, (i < dim0 lhs)%N ->
          row score i
          = [:: \sum_(k < dim1 lhs) entry 0 lhs i k * entry 0 rhs 0 k]].
Proof.
move=> wf_l wf_r r1 e1.
rewrite /SimpleFactor.similarity_score /bind /lift /ret /tf_multiply.
rewrite /elementwise r1 -e1 bshape_one bshape_same /=.
eexists; split=> //= i lt_i.
rewrite /row /= (nth_map [::]) ?size_mkseq // nth_mkseq //.
rewrite sum_seq_mkseq; congr [:: _]; apply: eq_bigr => k _.
by rewrite (bidx_lt lt_i) !(bidx_lt (ltn_ord k)).
Qed.

End DotProductPaths.

Section Batches.

Variable R : realDomainType.
Implicit Types (self : model R) (x y z w lhs rhs : tensor2 R).
Implicit Types (input : tensor2 int) (cls : model_class) (u v : seq R).

Lemma slice_col_nat input (k : nat) :
  (k < dim1 input)%N -> slice_col input k%:Z = Ok (col input k).
Proof. by move=> lt_k; rewrite (slice_colE (py_index_nat lt_k)). Qed.

Lemma slice_col_last input :
  (0 < dim1 input)%N -> slice_col input (-1) = Ok (col input (dim1 input).-1).
Proof. by move=> lt_k; rewrite (slice_colE (py_index_last lt_k)). Qed.

(** X6. On a batch without rows (and with at least two columns) get_lhs
    and get_rhs of every model return the empty 0 x dims tensor, and the
    score of the batch is the empty 0 x 1 tensor: nothing is looked up and
    nothing raises, whatever the tables hold. *)
Theorem empty_batch_gives_empty_tensors cls self (c : nat) :
  wf_of cls self -> (1 < c)%N ->
  [/\ get_lhs_of cls (empty_batch c) self
      = (Ok (Tensor2 0 (dims self) [::]), self),
      get_rhs_of cls (empty_batch c) self
      = (Ok (Tensor2 0 (dims self) [::]), self)
    & score_batch (get_lhs_of cls) (get_rhs_of cls) (similarity_score_of cls)
        (empty_batch c) false self
      = (Ok (Tensor2 0 1 [::]), self)].
Proof.
move=> wf_self lt1; have lt0 : (0 < c)%N by apply: ltn_trans lt1.
have wf_m := wf_of_model wf_self.
have /andP[/andP[_ /eqP dE] _] := wf_m.
have lhsE : get_lhs_of cls (empty_batch c) self
    = (Ok (Tensor2 0 (dims self) [::]), self).
  by rewrite get_lhs_of_run //; case: (cls).
have rhsE : get_rhs_of cls (empty_batch c) self
    = (Ok (Tensor2 0 (dims self) [::]), self).
  case: (cls) => /=.
  - by rewrite /SimpleFactor.get_rhs get_rhs_run // /lookup /= dE.
  - by rewrite /TransE.get_rhs get_rhs_run // /lookup /= dE.
  - by rewrite MuREuclidean_get_rhs_run.
split=> //; rewrite /score_batch /bind lhsE rhsE.
case: (cls); rewrite /similarity_score_of.
- by rewrite per_row_run.
- by rewrite /TransE.similarity_score similarity_score_run.
- by rewrite /MuREuclidean.similarity_score similarity_score_run.
Qed.

(** X7. get_lhs reads columns 0 and 1 of the batch and nothing else: two
    batches with at least two columns that agree on these two columns get
    the same result, whether it is a tensor or an error. *)
Theorem get_lhs_depends_on_columns_0_1 cls self input input' :
  (1 < dim1 input)%N -> (1 < dim1 input')%N ->
  col input 0 = col input' 0 -> col input 1 = col input' 1 ->
  get_lhs_of cls input self = get_lhs_of cls input' self.
Proof.
move=> lt1 lt1' c0 c1.
have lt0 : (0 < dim1 input)%N by apply: ltn_trans lt1.
have lt0' : (0 < dim1 input')%N by apply: ltn_trans lt1'.
have s0 := slice_col_nat lt0; have s0' := slice_col_nat lt0'.
have s1 := slice_col_nat lt1; have s1' := slice_col_nat lt1'.
by case: cls; rewrite /= /SimpleFactor.get_lhs /TransE.get_lhs
  /MuREuclidean.get_lhs /bind /lift s0 s0' s1 s1' c0 c1.
Qed.

(** X8. get_rhs reads the last column of the batch (and, for
    MuREuclidean, column 1) and nothing else: two batches, of any numbers
    of columns, that agree there get the same result, whether it is a
    tensor or an error. *)
Theorem get_rhs_depends_on_tail_column cls self input input' :
  (0 < dim1 input)%N -> (0 < dim1 input')%N ->
  col input (dim1 input).-1 = col input' (dim1 input').-1 ->
  (if cls is MuREuclideanC
   then [&& (1 < dim1 input)%N, (1 < dim1 input')%N
          & col input 1 == col input' 1]
   else true) ->
  get_rhs_of cls input self = get_rhs_of cls input' self.
Proof.
move=> lt0 lt0' ct.
have sl := slice_col_last lt0; have sl' := slice_col_last lt0'.
case: cls => /=; rewrite /SimpleFactor.get_rhs /TransE.get_rhs
  /CFEuclideanBase.get_rhs /MuREuclidean.get_rhs /bind /lift sl sl' ct //.
case/and3P=> lt1 lt1' /eqP c1.
by rewrite (slice_col_nat lt1) (slice_col_nat lt1') c1.
Qed.

Lemma ids_in_row (n : nat) input (i k : nat) :
  ids_in n input k -> (i < size (rows input))%N ->
  ids_in n (batch_row input i) k.
Proof.
move=> /allP ids lt_i; rewrite /ids_in /= andbT.
by apply: ids; apply: mem_nth.
Qed.

(** X9. get_lhs and get_rhs work row by row: on the batch made of row i
    alone they return row i of what they return on the whole batch. *)
Theorem lhs_rhs_row_by_row cls self input (i : nat) :
  wf_of cls self -> wf2 input -> (1 < dim1 input)%N ->
  ids_in (dim0 (entities self)) input 0 ->
  ids_in (dim0 (relations self)) input 1 ->
  ids_in (dim0 (entities self)) input (dim1 input).-1 ->
  (i < dim0 input)%N ->
  exists lhs rhs,
    [/\ get_lhs_of cls input self = (Ok lhs, self),
        get_rhs_of cls input self = (Ok rhs, self),
        get_lhs_of cls (batch_row input i) self = (Ok (row_tensor lhs i), self)
      & get_rhs_of cls (batch_row input i) self
        = (Ok (row_tensor rhs i), self)].
Proof.
move=> wf_self wf_in lt1 ih ir it lt_i; have szB := wf2_size wf_in.
have lt0 : (0 < dim1 input)%N by apply: ltn_trans lt1.
have lt_i' : (i < size (rows input))%N by rewrite szB.
have wf_m := wf_of_model wf_self.
have /andP[/andP[_ /eqP dE] _] := wf_m.
have rE := @get_rhs_run R self.
have rM := @MuREuclidean_get_rhs_run R self.
rewrite !get_lhs_of_run //; try exact: ids_in_row.
have [rhs [rhsE rowE]] : exists rhs,
    get_rhs_of cls input self = (Ok rhs, self)
    /\ get_rhs_of cls (batch_row input i) self = (Ok (row_tensor rhs i), self).
  case: (cls) => /=; rewrite /SimpleFactor.get_rhs /TransE.get_rhs.
  - rewrite !rE //; try exact: ids_in_row.
    by eexists; split; rewrite // /row_tensor row_lookup.
  - rewrite !rE //; try exact: ids_in_row.
    by eexists; split; rewrite // /row_tensor row_lookup.
  - rewrite !rM //; try exact: ids_in_row.
    by eexists; split; rewrite // /row_tensor row_pointwise.
rewrite rhsE rowE; do 2!eexists; split=> //.
by case: (cls); rewrite /row_tensor row_pointwise.
Qed.

End Batches.

Section RelationParameters.

Variable R : realDomainType.
Implicit Types (self : model R) (x y z w lhs rhs : tensor2 R).
Implicit Types (input : tensor2 int) (cls : model_class) (u v : seq R).

(** X10. RotRefEuclidean.get_lhs adds, row by row, the relation embedding
    of column 1 to what get_heads returns; the relation table is read in
    the model as get_heads leaves it. *)
Theorem RotRef_get_lhs_adds_relation
    (get_heads : tensor2 int -> M R (tensor2 R)) self self' input
    (heads : tensor2 R) :
  get_heads input self = (Ok heads, self') ->
  wf_model self' -> wf2 input -> (1 < dim1 input)%N ->
  ids_in (dim0 (relations self')) input 1 ->
  wf2 heads -> dim0 heads = dim0 input -> dim1 heads = dims self' ->
  exists lhs,
    [/\ RotRefEuclidean.get_lhs get_heads input self = (Ok lhs, self'),
        dim0 lhs = dim0 input, dim1 lhs = dims self'
      & forall i, (i < dim0 input)%N ->
          row lhs i = vadd (row heads i) (vec_at (relations self') input i 1)].
Proof.
move=> headsE /andP[_ wfR] wf_in lt1 ir wf_h h0 h1.
have /andP[_ /eqP dR] := wfR; have szB := wf2_size wf_in.
rewrite /RotRefEuclidean.get_lhs /bind headsE /lift /call_layer.
rewrite (slice_colE (py_index_nat lt1)) embedding_col //.
rewrite /tf_add elementwise_same /= ?szB ?dR //.
eexists; split=> // i lt_i.
have szh : size (row heads i) = dims self'.
  by rewrite -h1; apply: wf2_row; rewrite // h0.
have szr := size_vec_at wfR ir wf_in lt_i.
rewrite /row /= h0 nth_mkseq // h1 /vadd -(mkseq_zip +%R szh szr).
apply: mkseq_ext => j _; rewrite /entry /row /=.
by rewrite (nth_map [::]) ?szB.
Qed.

Lemma constant_row (c : R) (d : nat) w input (i k : nat) :
  wf2 w -> constant_table (nseq d c) w -> ids_in (dim0 w) input k ->
  (i < size (rows input))%N ->
  vec_at w input i k = nseq d c.
Proof.
move=> wf_w /allP const /allP ids lt_i; apply/eqP/const.
have: in_table (dim0 w) (nth 0 (nth [::] (rows input) i) k).
  by apply: ids; apply: mem_nth.
rewrite /vec_at /entry /row; case: (nth 0 _ k) => //= j lt_j.
by apply: mem_nth; rewrite (wf2_size wf_w).
Qed.

(* A table of neutral vectors on the right of op leaves the lookup on
   the left as it is. *)
Lemma pointwise_neutral (op : R -> R -> R) (c : R) (wa wb : tensor2 R) input
    (a b d : nat) :
  right_id c op -> wf_table d wa -> wf2 wb -> wf2 input ->
  ids_in (dim0 wa) input a -> ids_in (dim0 wb) input b ->
  constant_table (nseq d c) wb ->
  pointwise op wa wb input a b d = lookup wa input a.
Proof.
move=> opc wfa wf_b wf_in ia ib const; have szB := wf2_size wf_in.
have /andP[_ /eqP da] := wfa.
rewrite /pointwise /lookup da; congr (Tensor2 _ _ _).
apply: (@eq_from_nth _ [::]); first by rewrite size_mkseq size_map.
move=> i; rewrite size_mkseq => lt_i; rewrite nth_mkseq //.
rewrite -/(row (lookup wa input a) i) row_lookup //.
have sza : size (vec_at wa input i a) = d.
  by apply: (size_vec_at wfa ia wf_in); rewrite -szB.
rewrite -[RHS](mkseq_nth 0) sza; apply: mkseq_ext => j lt_j.
by rewrite (constant_row wf_b const ib lt_i) nth_nseq lt_j opc.
Qed.

(** X11. With neutral relation parameters get_lhs is the head embedding:
    zero relation vectors for TransE, unit relation vectors for
    SimpleFactor, unit transform vectors for MuREuclidean. *)
Theorem get_lhs_with_neutral_relation cls self input :
  wf_of cls self -> wf2 input -> (1 < dim1 input)%N ->
  ids_in (dim0 (entities self)) input 0 ->
  ids_in (dim0 (relations self)) input 1 ->
  constant_table (nseq (dims self) (if cls is TransEC then 0 else 1))
    (if cls is MuREuclideanC then transforms self else relations self) ->
  get_lhs_of cls input self = (Ok (lookup (entities self) input 0), self).
Proof.
move=> wf_self wf_in lt1 ih ir const.
have /andP[wfE /andP[wf_r _]] := wf_of_model wf_self.
rewrite get_lhs_of_run //; congr (Ok _, _).
case: cls wf_self const => wf_self const.
- exact: (pointwise_neutral (@mulr1 R)).
- exact: (pointwise_neutral (@addr0 R)).
- have [_ _ /andP[wf_t _] nT] := mur_unpack wf_self.
  rewrite -nT in ir.
  exact: (@pointwise_neutral (fun a b => b * a) 1 (entities self)
            (transforms self) input 0 1 (dims self) (@mul1r R)).
Qed.

(** X12. With zero relation vectors the get_rhs of MuREuclidean is the
    get_rhs it overrides, that of CFEuclideanBase. *)
Theorem MuREuclidean_get_rhs_with_zero_relations self input :
  wf_model self -> wf2 input -> (1 < dim1 input)%N ->
  ids_in (dim0 (entities self)) input (dim1 input).-1 ->
  ids_in (dim0 (relations self)) input 1 ->
  constant_table (nseq (dims self) 0) (relations self) ->
  MuREuclidean.get_rhs input self = CFEuclideanBase.get_rhs input self.
Proof.
move=> wf_m wf_in lt1 it ir const.
have lt0 : (0 < dim1 input)%N by apply: ltn_trans lt1.
have /andP[wfE /andP[wf_r _]] := wf_m.
rewrite MuREuclidean_get_rhs_run // get_rhs_run //; congr (Ok _, _).
exact: (pointwise_neutral (@addr0 R)).
Qed.

End RelationParameters.

Section Concatenation.

Variable R : realDomainType.
Implicit Types (self : model R) (x y z w lhs rhs : tensor2 R).
Implicit Types (input a b : tensor2 int) (cls : model_class) (u v : seq R).

Lemma mkseq_add (T : Type) (f : nat -> T) (m n : nat) :
  mkseq f (m + n) = mkseq f m ++ mkseq (fun i => f (m + i)%N) n.
Proof.
by rewrite /mkseq iotaD map_cat add0n -[X in iota X n]addn0 iotaDl -map_comp.
Qed.

Lemma ids_in_concat (n : nat) a b (k : nat) :
  ids_in n (concat0 a b) k = ids_in n a k && ids_in n b k.
Proof. by rewrite /ids_in /= all_cat. Qed.

Lemma lookup_concat w a b (k : nat) :
  lookup w (concat0 a b) k = concat0 (lookup w a k) (lookup w b k).
Proof. by rewrite /lookup /concat0 /= map_cat size_cat. Qed.

Lemma vec_at_concat w a b (i k : nat) :
  vec_at w (concat0 a b) i k
  = if (i < size (rows a))%N then vec_at w a i k
    else vec_at w b (i - size (rows a)) k.
Proof. by rewrite /vec_at /entry /row /= nth_cat; case: ifP. Qed.

Lemma pointwise_concat (op : R -> R -> R) (wa wb : tensor2 R) a b
    (ka kb d : nat) :
  pointwise op wa wb (concat0 a b) ka kb d
  = concat0 (pointwise op wa wb a ka kb d) (pointwise op wa wb b ka kb d).
Proof.
rewrite /pointwise /concat0 /= size_cat mkseq_add; congr (Tensor2 _ _ (_ ++ _)).
  by apply: mkseq_ext => i lt_i; rewrite !vec_at_concat lt_i.
apply: mkseq_ext => i _.
by rewrite !vec_at_concat ltnNge leq_addr /= addKn.
Qed.

Lemma batch_unpack self input :
  batch_in_bounds self input ->
  [/\ wf2 input, (1 < dim1 input)%N,
      ids_in (dim0 (entities self)) input 0,
      ids_in (dim0 (relations self)) input 1
    & ids_in (dim0 (entities self)) input (dim1 input).-1].
Proof. by case/and5P. Qed.

(* get_lhs and get_rhs of a class on a batch in bounds, as tensors. *)
Lemma lhs_rhs_run cls self input :
  wf_of cls self -> batch_in_bounds self input ->
  get_lhs_of cls input self
  = (Ok match cls with
        | SimpleFactorC =>
            pointwise *%R (entities self) (relations self) input 0 1
              (dims self)
        | TransEC =>
            pointwise +%R (entities self) (relations self) input 0 1
              (dims self)
        | MuREuclideanC =>
            pointwise *%R (transforms self) (entities self) input 1 0
              (dims self)
        end, self)
  /\ get_rhs_of cls input self
     = (Ok (if cls is MuREuclideanC
            then pointwise +%R (entities self) (relations self) input
                   (dim1 input).-1 1 (dims self)
            else lookup (entities self) input (dim1 input).-1), self).
Proof.
move=> wf_self /batch_unpack[wf_in lt1 ih ir it].
have lt0 : (0 < dim1 input)%N by apply: ltn_trans lt1.
have wf_m := wf_of_model wf_self.
split; first exact: get_lhs_of_run.
case: (cls) => /=.
- by rewrite /SimpleFactor.get_rhs get_rhs_run.
- by rewrite /TransE.get_rhs get_rhs_run.
- by rewrite MuREuclidean_get_rhs_run.
Qed.

(** X13. get_lhs and get_rhs of two batches put one after the other are
    the results for the two batches put one after the other: a batch can
    be split into chunks. *)
Theorem lhs_rhs_of_concatenated_batches cls self a b :
  wf_of cls self -> batch_in_bounds self a -> batch_in_bounds self b ->
  dim1 a = dim1 b ->
  exists la lb ra rb,
    [/\ get_lhs_of cls a self = (Ok la, self)
        /\ get_lhs_of cls b self = (Ok lb, self),
        get_rhs_of cls a self = (Ok ra, self)
        /\ get_rhs_of cls b self = (Ok rb, self),
        get_lhs_of cls (concat0 a b) self = (Ok (concat0 la lb), self)
      & get_rhs_of cls (concat0 a b) self = (Ok (concat0 ra rb), self)].
Proof.
move=> wf_self in_a in_b eq_cols.
have [wf_a lt1a iha ira ita] := batch_unpack in_a.
have [wf_b lt1b ihb irb itb] := batch_unpack in_b.
have in_ab : batch_in_bounds self (concat0 a b).
  rewrite /batch_in_bounds !ids_in_concat /= lt1a iha ira ita ihb irb.
  rewrite eq_cols itb !andbT /wf2 /= size_cat all_cat.
  case/andP: wf_a => /eqP -> ->; rewrite /wf2 -eq_cols in wf_b.
  by case/andP: wf_b => /eqP -> ->; rewrite eqxx.
have [lhs_a rhs_a] := lhs_rhs_run wf_self in_a.
have [lhs_b rhs_b] := lhs_rhs_run wf_self in_b.
have [lhs_ab rhs_ab] := lhs_rhs_run wf_self in_ab.
rewrite lhs_a lhs_b rhs_a rhs_b lhs_ab rhs_ab.
do 4!eexists; split=> //.
- by case: (cls); rewrite pointwise_concat.
- rewrite [dim1 (concat0 a b)]/= -eq_cols.
  by case: (cls); rewrite ?pointwise_concat ?lookup_concat.
Qed.

End Concatenation.

(* ------------------------------------------------------------------ *)
(* The further properties at the demo model                            *)
(* ------------------------------------------------------------------ *)

Lemma get_lhs_combines_head_and_relation_witness :
  [/\ wf_of TransEC demo_model, wf2 demo_padded_batch,
      (1 < dim1 demo_padded_batch)%N,
      ids_in (dim0 (entities demo_model)) demo_padded_batch 0
    & ids_in (dim0 (relations demo_model)) demo_padded_batch 1] /\
  exists lhs,
    [/\ get_lhs_of TransEC demo_padded_batch demo_model = (Ok lhs, demo_model),
        dim0 lhs = dim0 demo_padded_batch, dim1 lhs = dims demo_model
      & forall i, (i < dim0 demo_padded_batch)%N ->
          row lhs i
          = vadd (vec_at (entities demo_model) demo_padded_batch i 0)
                 (vec_at (relations demo_model) demo_padded_batch i 1)].
Proof.
split; first by split; reflexivity.
apply: (@get_lhs_combines_head_and_relation _ TransEC); reflexivity.
Defined.

Lemma SimpleFactor_score_trilinear_witness :
  wf_model demo_model /\ triples_in_bounds demo_model demo_batch /\
  exists score,
    [/\ score_batch SimpleFactor.get_lhs SimpleFactor.get_rhs
          SimpleFactor.similarity_score demo_batch false demo_model
        = (Ok score, demo_model),
        dim0 score = dim0 demo_batch, dim1 score = 1%N
      & forall i, (i < dim0 demo_batch)%N ->
          row score i =
          [:: \sum_(k < dims demo_model)
                nth 0 (vec_at (entities demo_model) demo_batch i 0) k
                * nth 0 (vec_at (relations demo_model) demo_batch i 1) k
                * nth 0 (vec_at (entities demo_model) demo_batch i 2) k]].
Proof.
split; [reflexivity | split; [reflexivity | ]].
apply: SimpleFactor_score_trilinear; reflexivity.
Defined.

Lemma SimpleFactor_per_row_is_diagonal_witness :
  [/\ wf2 demo_lhs, wf2 demo_rhs, dim0 demo_lhs = dim0 demo_rhs
    & dim1 demo_lhs = dim1 demo_rhs] /\
  exists all_scores row_scores,
    [/\ SimpleFactor.similarity_score demo_lhs demo_rhs true demo_model
        = (Ok all_scores, demo_model),
        SimpleFactor.similarity_score demo_lhs demo_rhs false demo_model
        = (Ok row_scores, demo_model)
      & forall i, (i < dim0 demo_lhs)%N ->
          row row_scores i = [:: entry 0 all_scores i i]].
Proof.
split; first by split; reflexivity.
apply: SimpleFactor_per_row_is_diagonal; reflexivity.
Defined.

Lemma SimpleFactor_all_items_swap_witness :
  [/\ wf2 demo_lhs, wf2 demo_rhs & dim1 demo_lhs = dim1 demo_rhs] /\
  exists score,
    SimpleFactor.similarity_score demo_lhs demo_rhs true demo_model
    = (Ok score, demo_model)
    /\ SimpleFactor.similarity_score demo_rhs demo_lhs true demo_model
       = (Ok (tf_transpose score), demo_model).
Proof.
split; first by split; reflexivity.
apply: SimpleFactor_all_items_swap; reflexivity.
Defined.

Lemma SimpleFactor_broadcasts_single_row_witness :
  [/\ wf2 demo_lhs, wf2 demo_single_row, dim0 demo_single_row = 1%N
    & dim1 demo_lhs = dim1 demo_single_row] /\
  exists score,
    [/\ SimpleFactor.similarity_score demo_lhs demo_single_row false demo_model
        = (Ok score, demo_model),
        dim0 score = dim0 demo_lhs, dim1 score = 1%N
      & forall i, (i < dim0 demo_lhs)%N ->
          row score i
          = [:: \sum_(k < dim1 demo_lhs)
                  entry 0 demo_lhs i k * entry 0 demo_single_row 0 k]].
Proof.
split; first by split; reflexivity.
apply: SimpleFactor_broadcasts_single_row; reflexivity.
Defined.

Lemma empty_batch_gives_empty_tensors_witness :
  wf_of MuREuclideanC demo_model /\ (1 < 3)%N /\
  [/\ get_lhs_of MuREuclideanC (empty_batch 3) demo_model
      = (Ok (Tensor2 0 (dims demo_model) [::]), demo_model),
      get_rhs_of MuREuclideanC (empty_batch 3) demo_model
      = (Ok (Tensor2 0 (dims demo_model) [::]), demo_model)
    & score_batch (get_lhs_of MuREuclideanC) (get_rhs_of MuREuclideanC)
        (similarity_score_of MuREuclideanC) (empty_batch 3) false demo_model
      = (Ok (Tensor2 0 1 [::]), demo_model)].
Proof.
split; [reflexivity | split; [reflexivity | ]].
apply: empty_batch_gives_empty_tensors; reflexivity.
Defined.

Lemma get_lhs_depends_on_columns_0_1_witness :
  [/\ (1 < dim1 demo_batch)%N, (1 < dim1 demo_padded_batch)%N,
      col demo_batch 0 = col demo_padded_batch 0
    & col demo_batch 1 = col demo_padded_batch 1] /\
  get_lhs_of SimpleFactorC demo_batch demo_model
  = get_lhs_of SimpleFactorC demo_padded_batch demo_model.
Proof.
split; first by split; reflexivity.
apply: get_lhs_depends_on_columns_0_1; reflexivity.
Defined.

Lemma get_rhs_depends_on_tail_column_witness :
  [/\ (0 < dim1 demo_batch)%N, (0 < dim1 demo_wide_batch)%N
    & col demo_batch (dim1 demo_batch).-1
      = col demo_wide_batch (dim1 demo_wide_batch).-1] /\
  get_rhs_of TransEC demo_batch demo_model
  = get_rhs_of TransEC demo_wide_batch demo_model.
Proof.
split; first by split; reflexivity.
apply: (@get_rhs_depends_on_tail_column _ TransEC); reflexivity.
Defined.

Lemma lhs_rhs_row_by_row_witness :
  [/\ wf_of MuREuclideanC demo_model, wf2 demo_batch, (1 < dim1 demo_batch)%N,
      ids_in (dim0 (entities demo_model)) demo_batch 0
      /\ ids_in (dim0 (relations demo_model)) demo_batch 1
    & ids_in (dim0 (entities demo_model)) demo_batch (dim1 demo_batch).-1
      /\ (1 < dim0 demo_batch)%N] /\
  exists lhs rhs,
    [/\ get_lhs_of MuREuclideanC demo_batch demo_model = (Ok lhs, demo_model),
        get_rhs_of MuREuclideanC demo_batch demo_model = (Ok rhs, demo_model),
        get_lhs_of MuREuclideanC (batch_row demo_batch 1) demo_model
        = (Ok (row_tensor lhs 1), demo_model)
      & get_rhs_of MuREuclideanC (batch_row demo_batch 1) demo_model
        = (Ok (row_tensor rhs 1), demo_model)].
Proof.
split; first by split; [| | | split | split]; reflexivity.
apply: lhs_rhs_row_by_row; reflexivity.
Defined.

Lemma RotRef_get_lhs_adds_relation_witness :
  [/\ demo_get_heads demo_batch demo_model = (Ok demo_heads, demo_model),
      wf_model demo_model /\ wf2 demo_batch,
      (1 < dim1 demo_batch)%N
      /\ ids_in (dim0 (relations demo_model)) demo_batch 1,
      wf2 demo_heads
    & dim0 demo_heads = dim0 demo_batch /\ dim1 demo_heads = dims demo_model]
  /\
  exists lhs,
    [/\ RotRefEuclidean.get_lhs demo_get_heads demo_batch demo_model
        = (Ok lhs, demo_model),
        dim0 lhs = dim0 demo_batch, dim1 lhs = dims demo_model
      & forall i, (i < dim0 demo_batch)%N ->
          row lhs i
          = vadd (row demo_heads i)
                 (vec_at (relations demo_model) demo_batch i 1)].
Proof.
split; first by split; [| split | split | | split]; reflexivity.
apply: (@RotRef_get_lhs_adds_relation _ demo_get_heads demo_model);
  reflexivity.
Defined.

Lemma get_lhs_with_neutral_relation_witness :
  [/\ wf_of TransEC (neutral_model 0), wf2 demo_batch,
      (1 < dim1 demo_batch)%N,
      ids_in (dim0 (entities (neutral_model 0))) demo_batch 0
      /\ ids_in (dim0 (relations (neutral_model 0))) demo_batch 1
    & constant_table (nseq (dims (neutral_model 0)) 0)
        (relations (neutral_model 0))] /\
  get_lhs_of TransEC demo_batch (neutral_model 0)
  = (Ok (lookup (entities (neutral_model 0)) demo_batch 0), neutral_model 0).
Proof.
split; first by split; [| | | split | ]; reflexivity.
apply: (@get_lhs_with_neutral_relation _ TransEC); reflexivity.
Defined.

Lemma MuREuclidean_get_rhs_with_zero_relations_witness :
  [/\ wf_model (neutral_model 0), wf2 demo_batch, (1 < dim1 demo_batch)%N,
      ids_in (dim0 (entities (neutral_model 0))) demo_batch
        (dim1 demo_batch).-1
      /\ ids_in (dim0 (relations (neutral_model 0))) demo_batch 1
    & constant_table (nseq (dims (neutral_model 0)) 0)
        (relations (neutral_model 0))] /\
  MuREuclidean.get_rhs demo_batch (neutral_model 0)
  = CFEuclideanBase.get_rhs demo_batch (neutral_model 0).
Proof.
split; first by split; [| | | split | ]; reflexivity.
apply: MuREuclidean_get_rhs_with_zero_relations; reflexivity.
Defined.

Lemma lhs_rhs_of_concatenated_batches_witness :
  [/\ wf_of TransEC demo_model, batch_in_bounds demo_model demo_batch,
      batch_in_bounds demo_model demo_second_batch
    & dim1 demo_batch = dim1 demo_second_batch] /\
  exists la lb ra rb,
    [/\ get_lhs_of TransEC demo_batch demo_model = (Ok la, demo_model)
        /\ get_lhs_of TransEC demo_second_batch demo_model
           = (Ok lb, demo_model),
        get_rhs_of TransEC demo_batch demo_model = (Ok ra, demo_model)
        /\ get_rhs_of TransEC demo_second_batch demo_model
           = (Ok rb, demo_model),
        get_lhs_of TransEC (concat0 demo_batch demo_second_batch) demo_model
        = (Ok (concat0 la lb), demo_model)
      & get_rhs_of TransEC (concat0 demo_batch demo_second_batch) demo_model
        = (Ok (concat0 ra rb), demo_model)].
Proof.
split; first by split; reflexivity.
apply: lhs_rhs_of_concatenated_batches; reflexivity.
Defined.
